(** * A resumable bulk downloader: model of [bulk_downloader.py]

    The script is a sequential, effectful Python program.  Its effects are
    HTTP requests, reads and writes of files in the working directory,
    console input/output, and updates of the fields of the [BulkDownloader]
    object.  They are modelled by explicit state passing in a state and
    exception monad; Python exceptions are values of an inductive type and
    [try]/[except] is a combinator that inspects the class of the exception.

    Integers are Python integers ([Z]); file contents are byte lists; the
    working directory is a finite map from names to nodes. *)

From Stdlib Require Import ZArith QArith Ascii String List Lia.
From stdpp Require Import base option list gmap strings pretty.

Local Open Scope string_scope.
Local Open Scope list_scope.
Local Open Scope Z_scope.

(** ** Strings *)

Module Str.

Definition code (a : ascii) : nat := nat_of_ascii a.

Definition between (lo hi : nat) (a : ascii) : bool :=
  (lo <=? code a)%nat && (code a <=? hi)%nat.

Definition is_digit : ascii → bool := between 48 57.
Definition is_upper : ascii → bool := between 65 90.
Definition is_lower : ascii → bool := between 97 122.
Definition is_alpha (a : ascii) : bool := is_upper a || is_lower a.

Definition lower (a : ascii) : ascii :=
  if is_upper a then ascii_of_nat (code a + 32) else a.

Fixpoint map (f : ascii → ascii) (s : string) : string :=
  match s with
  | EmptyString => EmptyString
  | String a s' => String (f a) (map f s')
  end.

Fixpoint forallb (p : ascii → bool) (s : string) : bool :=
  match s with
  | EmptyString => true
  | String a s' => p a && forallb p s'
  end.

Fixpoint mem (c : ascii) (s : string) : bool :=
  match s with
  | EmptyString => false
  | String a s' => Ascii.eqb a c || mem c s'
  end.

(** [s.lstrip(chars)] for a character class [p]. *)
Fixpoint lstrip (p : ascii → bool) (s : string) : string :=
  match s with
  | EmptyString => EmptyString
  | String a s' => if p a then lstrip p s' else s
  end.

(** Removes every character of class [p]. *)
Fixpoint remove (p : ascii → bool) (s : string) : string :=
  match s with
  | EmptyString => EmptyString
  | String a s' => if p a then remove p s' else String a (remove p s')
  end.

(** Longest prefix free of class [p], and the rest (which starts with the
    first character of class [p], when there is one). *)
Fixpoint break (p : ascii → bool) (s : string) : string * string :=
  match s with
  | EmptyString => (EmptyString, EmptyString)
  | String a s' =>
      if p a then (EmptyString, s)
      else let '(l, r) := break p s' in (String a l, r)
  end.

(** [s.split(c, 1)] when [c] occurs in [s]: the text before the first
    occurrence and the text after it. *)
Definition split_once (c : ascii) (s : string) : option (string * string) :=
  match break (Ascii.eqb c) s with
  | (l, String _ r) => Some (l, r)
  | (_, EmptyString) => None
  end.

(** The text before the first [c], or all of [s] when there is none. *)
Definition before (c : ascii) (s : string) : string :=
  fst (break (Ascii.eqb c) s).

(** [s[s.rfind(c) + 1:]]: the text after the last [c], or all of [s]. *)
Fixpoint after_last (c : ascii) (s : string) : string :=
  match s with
  | EmptyString => EmptyString
  | String a s' =>
      if mem c s' then after_last c s'
      else if Ascii.eqb a c then s' else s
  end.

(** [s[:s.rfind(c) + 1]]: the text up to and including the last [c]. *)
Fixpoint upto_last (c : ascii) (s : string) : string :=
  match s with
  | EmptyString => EmptyString
  | String a s' =>
      if mem c s' then String a (upto_last c s')
      else if Ascii.eqb a c then String a EmptyString else EmptyString
  end.

End Str.

(** ** Library functions used by the script *)

(** [int(s)] for a [str] of characters below 256 (CPython 3.12): white
    space is dropped at both ends, an optional sign is read, and the rest
    must be decimal digits, a single underscore being allowed between two
    digits; more than 4300 digits are refused.  White space is what the
    conversion skips: the ASCII characters 9 to 13 and 32, and, of the
    characters from 127 on, those it first turns into a space, 133 and 160.
    [None] stands for the [ValueError] that [int] raises on anything
    else. *)
Module PyInt.

Definition is_space (a : ascii) : bool :=
  Str.between 9 13 a || Str.between 32 32 a
  || Str.between 133 133 a || Str.between 160 160 a.

Definition digit_value (a : ascii) : Z := Z.of_nat (Str.code a - 48).

(** [seen] tells whether the previous character was a digit. *)
Fixpoint digits (acc : Z) (seen : bool) (s : string) : option Z :=
  match s with
  | EmptyString => if seen then Some acc else None
  | String a s' =>
      if Str.is_digit a then digits (10 * acc + digit_value a) true s'
      else if Ascii.eqb a "_" then
        if seen then digits acc false s' else None
      else None
  end.

(** [sys.int_info.default_max_str_digits]. *)
Definition max_str_digits : N := 4300.

Fixpoint digit_count (s : string) : N :=
  match s with
  | EmptyString => 0
  | String a s' => (if Str.is_digit a then 1 else 0) + digit_count s'
  end.

(** The digits after the sign. *)
Definition number (s : string) : option Z :=
  if (digit_count s <=? max_str_digits)%N then digits 0 false s else None.

Fixpoint rstrip_spaces (s : string) : string :=
  match s with
  | EmptyString => EmptyString
  | String a s' =>
      match rstrip_spaces s' with
      | EmptyString => if is_space a then EmptyString else String a EmptyString
      | t => String a t
      end
  end.

Definition strip (s : string) : string :=
  rstrip_spaces (Str.lstrip is_space s).

Definition of_string (s : string) : option Z :=
  match strip s with
  | String "-" t => Z.opp <$> number t
  | String "+" t => number t
  | t => number t
  end.

End PyInt.

(** [urllib.parse.urlparse(url).path] (CPython 3.12, [str] argument).
    [urlsplit] strips leading control characters and spaces, deletes tabs
    and line breaks, splits off a scheme, an authority introduced by [//],
    the fragment and the query; [urlparse] then splits the parameters off
    the last path segment for the schemes that use them.  The one rejection
    modelled is the [ValueError] for an authority with an unmatched square
    bracket ([None] here).  The check of a bracketed host as an IP literal
    is not modelled: an authority with a matched pair of brackets is
    accepted here whatever stands between them. *)
Module UrlParse.

Definition c0_control_or_space (a : ascii) : bool := (Str.code a <=? 32)%nat.

Definition unsafe_byte (a : ascii) : bool :=
  Ascii.eqb a "009" || Ascii.eqb a "010" || Ascii.eqb a "013".

Definition scheme_char (a : ascii) : bool :=
  Str.is_alpha a || Str.is_digit a
  || Ascii.eqb a "+" || Ascii.eqb a "-" || Ascii.eqb a ".".

Definition uses_params : list string :=
  [""; "ftp"; "hdl"; "prospero"; "http"; "imap"; "https"; "shttp"; "rtsp";
   "rtspu"; "sip"; "sips"; "mms"; "sftp"; "tel"].

(** The scheme (lower-cased) and the text after its colon. *)
Definition split_scheme (url : string) : string * string :=
  match Str.split_once ":" url with
  | Some (String a _ as s, rest) =>
      if Str.is_alpha a && Str.forallb scheme_char s
      then (Str.map Str.lower s, rest)
      else ("", url)
  | _ => ("", url)
  end.

Definition netloc_delim (a : ascii) : bool :=
  Ascii.eqb a "/" || Ascii.eqb a "?" || Ascii.eqb a "#".

(** The authority and the text from its delimiter on. *)
Definition split_netloc (url : string) : string * string :=
  match url with
  | String "/" (String "/" rest) => Str.break netloc_delim rest
  | _ => ("", url)
  end.

Definition bad_brackets (netloc : string) : bool :=
  xorb (Str.mem "[" netloc) (Str.mem "]" netloc).

(** [_splitparams]: the parameters start at the first semicolon of the
    last path segment. *)
Definition strip_params (url : string) : string :=
  Str.upto_last "/" url +:+ Str.before ";" (Str.after_last "/" url).

Definition path (url : string) : option string :=
  let url := Str.lstrip c0_control_or_space url in
  let url := Str.remove unsafe_byte url in
  let '(scheme, url) := split_scheme url in
  let '(netloc, url) := split_netloc url in
  if bad_brackets netloc then None
  else
    let url := Str.before "#" url in
    let url := Str.before "?" url in
    Some (if bool_decide (scheme ∈ uses_params) then strip_params url
          else url).

End UrlParse.

(** [os.path.basename] (POSIX): the text after the last slash. *)
Definition basename (p : string) : string := Str.after_last "/" p.

(** Line 103: [os.path.basename(urlparse(url).path)]. *)
Definition local_filename (url : string) : option string :=
  basename <$> UrlParse.path url.

(** ** The world the script runs in *)

Definition chunk : Type := list Byte.byte.

(** An entry of the working directory. [os.path.exists] and
    [os.path.getsize] answer for both kinds, [open] only for files. *)
Inductive node :=
| File (content : list Byte.byte)
| Dir (size : N).

(** The modes the script opens its output file in: ['wb'] and ['ab']. *)
Inductive open_mode := WB | AB.

(** The [ValueError]s of the script and of the library calls it makes. *)
Inductive value_error :=
| InvalidURL                                      (* urlparse *)
| InvalidLiteral (s : string)                     (* int *)
| MD5Mismatch (name expected actual : string)     (* line 100 *)
| SizeMismatch (downloaded total : Z)             (* line 139 *)
| FinalSizeMismatch (file_size total : Z).        (* line 143 *)

Inductive exn :=
| ConnectionError                (* a requests.RequestException raised by a
                                    request or by the body stream *)
| HTTPError (status : Z)         (* requests.HTTPError, from raise_for_status *)
| ValueError (v : value_error)
| OSError (name : string)
| ZeroDivisionError
| SystemExit (code : Z).

(** [isinstance(e, requests.RequestException)] and
    [isinstance(e, ValueError)]. *)
Definition is_RequestException (e : exn) : bool :=
  match e with ConnectionError | HTTPError _ => true | _ => false end.

Definition is_ValueError (e : exn) : bool :=
  match e with ValueError _ => true | _ => false end.

(** What the script prints, by source line. *)
Inductive message :=
| CookieValidated                                 (* 65 *)
| CookieValidationError (e : exn)                 (* 68 *)
| ObtainingCookie                                 (* 70 *)
| CookieSaved                                     (* 84 *)
| CookieRefused (status : Z)                      (* 86 *)
| AlreadyComplete (name : string)                 (* 112 *)
| Restarting (name : string)                      (* 119 *)
| Downloading (url : string)                      (* 122 *)
| NotComplete (name : string)                     (* 138 *)
| Downloaded (name : string) (file_size : Z)      (* 148 *)
| FailedToDownload (url : string) (e : exn).      (* 152 *)

(** What can be observed of a run, in order. *)
Inductive event :=
| Print (m : message)
| Progress (downloaded total : Z) (percent : Q)   (* line 156 *)
| Input                                           (* username prompt *)
| Getpass                                         (* password prompt *)
| GetProfile                                      (* GET of the test URL *)
| GetAuthorize (username password : string)
| SaveCookies
| Head (url : string)
| Get (url : string) (range : option string)
| Open (name : string) (mode : open_mode).

(** A response to the body GET: status, the Content-Length header if any,
    the chunks [iter_content] yields, and whether the stream then breaks
    with a [RequestException] instead of ending. *)
Record response := Response {
  status_code : Z;
  content_length : option string;
  chunks : list chunk;
  broken : bool }.

(** The remote side and the console, as the script sees them: each request
    either raises a [RequestException] ([None]) or has a reply.  The replies
    of [requests.head] and of the two cookie requests are reduced to the one
    field the script reads. *)
Record remote := Remote {
  head : string → option (option string);         (* Content-Length *)
  get : string → option string → option response; (* by URL and Range *)
  profile : option Z;                             (* status code *)
  authorize : string → string → option Z;         (* status code *)
  typed_username : string;
  typed_password : string }.

(** The fields of the [BulkDownloader] object that the downloads use, the
    working directory, and the events so far. *)
Record world := World {
  file_urls : list string;
  total_bytes : Z;
  success : list string;
  failed : list string;
  disk : gmap string node;
  trace : list event }.

Definition set_total_bytes (n : Z) (w : world) : world :=
  World (file_urls w) n (success w) (failed w) (disk w) (trace w).
Definition set_success (l : list string) (w : world) : world :=
  World (file_urls w) (total_bytes w) l (failed w) (disk w) (trace w).
Definition set_failed (l : list string) (w : world) : world :=
  World (file_urls w) (total_bytes w) (success w) l (disk w) (trace w).
Definition set_disk (d : gmap string node) (w : world) : world :=
  World (file_urls w) (total_bytes w) (success w) (failed w) d (trace w).
Definition set_trace (t : list event) (w : world) : world :=
  World (file_urls w) (total_bytes w) (success w) (failed w) (disk w) t.

(** The empty name denotes no entry. *)
Definition stat (d : gmap string node) (name : string) : option node :=
  if decide (name = "") then None else d !! name.

Definition is_dir (d : gmap string node) (name : string) : bool :=
  match stat d name with Some (Dir _) => true | _ => false end.

Definition node_size (n : node) : Z :=
  match n with
  | File content => Z.of_nat (length content)
  | Dir size => Z.of_N size
  end.

(** The effect of [f.write(data)] on the node behind the handle. *)
Definition append_data (data : chunk) (n : node) : node :=
  match n with
  | File content => File (content ++ data)
  | Dir _ => n
  end.

(** The integer that [int(headers.get('Content-Length', 0))] yields; [None]
    when [int] raises. *)
Definition header_value (h : option string) : option Z :=
  match h with
  | None => Some 0
  | Some s => PyInt.of_string s
  end.

(** ** The monad: state, and Python exceptions *)

Inductive result (A : Type) :=
| Return (a : A)
| Raise (e : exn).
Arguments Return {A} a.
Arguments Raise {A} e.

Definition M (A : Type) : Type := world → result A * world.

Global Instance M_ret : MRet M := λ A a w, (Return a, w).

Global Instance M_bind : MBind M := λ A B k m w,
  match m w with
  | (Return a, w') => k a w'
  | (Raise e, w') => (Raise e, w')
  end.

Definition raise {A} (e : exn) : M A := λ w, (Raise e, w).

(** [try: body  except classes as e: handler e]. *)
Definition try_except {A} (body : M A) (classes : exn → bool)
    (handler : exn → M A) : M A := λ w,
  match body w with
  | (Raise e, w') => if classes e then handler e w' else (Raise e, w')
  | r => r
  end.

Definition modify (f : world → world) : M unit := λ w, (Return tt, f w).
Definition gets {A} (f : world → A) : M A := λ w, (Return (f w), w).

Definition emit (e : event) : M unit :=
  modify (λ w, set_trace (trace w ++ [e]) w).
Definition print (m : message) : M unit := emit (Print m).

(** The [Range] header of a resumed request: [f"bytes={local_size}-"]. *)
Definition range_from (local_size : Z) : string :=
  "bytes=" +:+ pretty local_size +:+ "-".

(** ** The script *)

Section BulkDownloader.

(** [hashlib.md5(content).hexdigest()], and the remote side. *)
Variable md5_hexdigest : list Byte.byte → string.
Variable net : remote.

(** *** File system and library calls *)

Definition os_path_exists (name : string) : M bool :=
  gets (λ w, match stat (disk w) name with Some _ => true | None => false end).

Definition os_path_getsize (name : string) : M Z :=
  d ← gets disk;
  match stat d name with
  | Some n => mret (node_size n)
  | None => raise (OSError name)
  end.

(** [open(name, mode)] for writing: ['wb'] creates or truncates, ['ab']
    creates or keeps; a directory or the empty name cannot be opened.
    The failures of [open] that depend on the file system (a name it
    refuses, a missing permission) are not modelled: every other name can
    be opened here. *)
Definition open_for_writing (name : string) (mode : open_mode) : M unit :=
  emit (Open name mode);;
  d ← gets disk;
  match stat d name, mode with
  | Some (Dir _), _ => raise (OSError name)
  | Some (File _), AB => mret tt
  | _, _ =>
      if decide (name = "") then raise (OSError name)
      else modify (set_disk (<[name := File []]> d))
  end.

(** [f.write(data)] on the file opened under [name]. *)
Definition write (name : string) (data : chunk) : M unit :=
  modify (λ w, set_disk (alter (append_data data) name (disk w)) w).

(** [int(headers.get('Content-Length', 0))]. *)
Definition int_of_header (h : option string) : M Z :=
  match header_value h with
  | Some n => mret n
  | None => raise (ValueError (InvalidLiteral (default "" h)))
  end.

Definition requests_head (url : string) : M (option string) :=
  emit (Head url);;
  match head net url with
  | Some h => mret h
  | None => raise ConnectionError
  end.

Definition requests_get (url : string) (range : option string) : M response :=
  emit (Get url range);;
  match get net url range with
  | Some r => mret r
  | None => raise ConnectionError
  end.

(** [response.raise_for_status()]: client and server errors raise. *)
Definition raise_for_status (r : response) : M unit :=
  if (400 <=? status_code r) && (status_code r <? 600)
  then raise (HTTPError (status_code r))
  else mret tt.

(** Python's [a / b] on integers, with the quotient kept exact: the
    rounding to a float and the [OverflowError] for a quotient beyond the
    floats are not modelled. *)
Definition truediv (a b : Z) : M Q :=
  if decide (b = 0) then raise ZeroDivisionError
  else mret (inject_Z a / inject_Z b)%Q.

(** *** Lines 89-100 *)

Definition calculate_md5 (file_path : string) : M string :=
  d ← gets disk;
  match stat d file_path with
  | Some (File content) => mret (md5_hexdigest content)
  | _ => raise (OSError file_path)
  end.

(** Truth value of [expected_md5]: [None] and the empty string are false. *)
Definition supplied (expected_md5 : option string) : option string :=
  match expected_md5 with
  | Some EmptyString | None => None
  | Some e => Some e
  end.

Definition verify_file_integrity (local_filename : string)
    (expected_md5 : option string) : M unit :=
  match supplied expected_md5 with
  | Some expected =>
      actual_md5 ← calculate_md5 local_filename;
      if decide (actual_md5 ≠ expected)
      then raise (ValueError (MD5Mismatch local_filename expected actual_md5))
      else mret tt
  | None => mret tt
  end.

(** *** Lines 154-157 *)

Definition show_progress (downloaded total : Z) : M unit :=
  percent ← (if decide (total ≠ 0)
             then q ← truediv downloaded total; mret (q * 100)%Q
             else mret 0%Q);
  emit (Progress downloaded total percent).

(** *** Lines 102-152 *)

(** Lines 107-122.  [None]: the method has returned (line 116);
    [Some (local_size, range)]: go on with this local size and this
    [Range] header. *)
Definition probe (url local_filename : string)
    (expected_md5 : option string) : M (option (Z * option string)) :=
  present ← os_path_exists local_filename;
  if (present : bool) then
    local_size ← os_path_getsize local_filename;
    h ← requests_head url;
    total_size ← int_of_header h;
    if decide (local_size = total_size) then
      print (AlreadyComplete local_filename);;
      verify_file_integrity local_filename expected_md5;;
      modify (λ w, set_success (success w ++ [local_filename]) w);;
      modify (λ w, set_total_bytes (total_bytes w + local_size) w);;
      mret None
    else
      print (Restarting local_filename);;
      mret (Some (local_size, Some (range_from local_size)))
  else
    print (Downloading url);;
    mret (Some (0, None)).

(** Lines 131-135: the chunks are written as they come; empty ones are
    skipped.  Returns [downloaded_size]. *)
Fixpoint write_chunks (local_filename : string) (cs : list chunk)
    (downloaded_size total_size : Z) : M Z :=
  match cs with
  | [] => mret downloaded_size
  | c :: cs' =>
      match c with
      | [] => write_chunks local_filename cs' downloaded_size total_size
      | _ =>
          write local_filename c;;
          let downloaded_size := downloaded_size + Z.of_nat (length c) in
          show_progress downloaded_size total_size;;
          write_chunks local_filename cs' downloaded_size total_size
      end
  end.

(** Lines 124-148. *)
Definition transfer (url local_filename : string)
    (expected_md5 : option string) (local_size : Z)
    (range : option string) : M unit :=
  r ← requests_get url range;
  raise_for_status r;;
  n ← int_of_header (content_length r);
  let total_size := n + local_size in
  let mode := if decide (local_size > 0) then AB else WB in
  open_for_writing local_filename mode;;
  downloaded_size ← write_chunks local_filename (chunks r) local_size total_size;
  (if broken r then raise ConnectionError else mret tt);;
  (if decide (downloaded_size ≠ total_size) then
     print (NotComplete local_filename);;
     raise (ValueError (SizeMismatch downloaded_size total_size))
   else mret tt);;
  file_size ← os_path_getsize local_filename;
  (if decide (file_size ≠ total_size)
   then raise (ValueError (FinalSizeMismatch file_size total_size))
   else mret tt);;
  verify_file_integrity local_filename expected_md5;;
  modify (λ w, set_total_bytes (total_bytes w + file_size) w);;
  modify (λ w, set_success (success w ++ [local_filename]) w);;
  print (Downloaded local_filename file_size).

(** The [except] clause of line 150. *)
Definition caught (e : exn) : bool := is_RequestException e || is_ValueError e.

Definition download_file (url : string) (expected_md5 : option string) : M unit :=
  match local_filename url with
  | None => raise (ValueError InvalidURL)
  | Some local_filename =>
      try_except
        (p ← probe url local_filename expected_md5;
         match p with
         | None => mret tt
         | Some (local_size, range) =>
             transfer url local_filename expected_md5 local_size range
         end)
        caught
        (λ e,
           modify (λ w, set_failed (failed w ++ [url]) w);;
           print (FailedToDownload url e))
  end.

(** *** Lines 159-167; the wall-clock time is left out. *)

Fixpoint for_each (urls : list string) (body : string → M unit) : M unit :=
  match urls with
  | [] => mret tt
  | url :: urls' => body url;; for_each urls' body
  end.

Definition download_files : M unit :=
  urls ← gets file_urls;
  for_each urls (λ url, download_file url None).

(** *** Lines 58-87 *)

Definition get_new_cookie : M unit :=
  emit Input;;
  let username := typed_username net in
  emit Getpass;;
  let password := typed_password net in
  emit (GetAuthorize username password);;
  match authorize net username password with
  | None => raise ConnectionError
  | Some status =>
      if decide (status = 200) then
        emit SaveCookies;;
        print CookieSaved
      else
        print (CookieRefused status);;
        raise (SystemExit 1)
  end.

(** The [try] block yields whether line 66 returned. *)
Definition check_or_get_cookie : M unit :=
  returned ← try_except
    (emit GetProfile;;
     match profile net with
     | None => raise ConnectionError
     | Some status =>
         if decide (status = 200)
         then print CookieValidated;; mret true
         else mret false
     end)
    is_RequestException
    (λ e, print (CookieValidationError e);; mret false);
  if (returned : bool) then mret tt
  else print ObtainingCookie;; get_new_cookie.

End BulkDownloader.
(** ** Evaluation lemmas *)

Ltac run :=
  cbv beta iota delta
    [mbind M_bind mret M_ret gets modify raise emit print try_except
     os_path_exists os_path_getsize open_for_writing write requests_head
     requests_get raise_for_status calculate_md5 verify_file_integrity
     int_of_header caught is_RequestException is_ValueError orb];
  cbn [file_urls total_bytes success failed disk trace
       set_total_bytes set_success set_failed set_disk set_trace fst snd].

Definition percent_of (downloaded total : Z) : Q :=
  if decide (total = 0) then 0%Q
  else (inject_Z downloaded / inject_Z total * 100)%Q.

Lemma show_progress_run (downloaded total : Z) (w : world) :
  show_progress downloaded total w =
    (Return tt,
     set_trace (trace w ++ [Progress downloaded total
                              (percent_of downloaded total)]) w).
Proof.
  unfold show_progress, truediv, percent_of.
  destruct (decide (total = 0)) as [-> | Hne].
  - reflexivity.
  - destruct (decide (total ≠ 0)) as [_ | []]; [| assumption].
    run. destruct (decide (total = 0)); [contradiction | reflexivity].
Qed.

(** The progress lines of one body stream. *)
Fixpoint progress_events (cs : list chunk) (downloaded total : Z) : list event :=
  match cs with
  | [] => []
  | [] :: cs' => progress_events cs' downloaded total
  | c :: cs' =>
      let downloaded := downloaded + Z.of_nat (length c) in
      Progress downloaded total (percent_of downloaded total)
        :: progress_events cs' downloaded total
  end.

Lemma alter_append_data (a b : chunk) (name : string) (d : gmap string node) :
  alter (append_data b) name (alter (append_data a) name d)
  = alter (append_data (a ++ b)) name d.
Proof.
  apply map_eq; intros k.
  destruct (decide (name = k)) as [-> | Hne].
  - rewrite !lookup_alter_eq.
    destruct (d !! k) as [[c | s] |]; cbn; [| reflexivity ..].
    by rewrite <- app_assoc.
  - by rewrite !lookup_alter_ne.
Qed.

Lemma alter_append_nil (name : string) (d : gmap string node) :
  alter (append_data []) name d = d.
Proof.
  apply map_eq; intros k.
  destruct (decide (name = k)) as [-> | Hne].
  - rewrite lookup_alter_eq.
    destruct (d !! k) as [[c | s] |]; cbn; [| reflexivity ..].
    by rewrite app_nil_r.
  - by rewrite lookup_alter_ne.
Qed.

Lemma write_chunks_run (name : string) (cs : list chunk) :
  ∀ (downloaded total : Z) (w : world),
    write_chunks name cs downloaded total w =
      (Return (downloaded + Z.of_nat (length (concat cs))),
       set_trace (trace w ++ progress_events cs downloaded total)
         (set_disk (alter (append_data (concat cs)) name (disk w)) w)).
Proof.
  induction cs as [| c cs IH]; intros downloaded total w.
  - cbn. rewrite alter_append_nil, app_nil_r, Z.add_0_r. by destruct w.
  - destruct c as [| b c].
    + cbn [write_chunks progress_events concat app]. apply IH.
    + cbn [write_chunks progress_events]. run.
      rewrite show_progress_run. cbn [concat].
      rewrite IH. cbn [trace disk set_trace set_disk].
      rewrite alter_append_data, <- app_assoc, length_app, Nat2Z.inj_add.
      rewrite Z.add_assoc. reflexivity.
Qed.

Ltac step :=
  match goal with
  | |- context [match ?x with _ => _ end] =>
      lazymatch x with
      | context [match _ with _ => _ end] => fail
      | _ => destruct x eqn:?
      end
  end.

Ltac use_hyps :=
  repeat match goal with
  | H : stat _ _ = _ |- _ => rewrite H
  | H : head _ _ = _ |- _ => rewrite H
  | H : get _ _ _ = _ |- _ => rewrite H
  | H : header_value _ = _ |- _ => rewrite H
  | H : supplied _ = _ |- _ => rewrite H
  | H : broken _ = _ |- _ => rewrite H
  | H : (_ && _)%bool = _ |- _ => rewrite H
  end.

Ltac fields :=
  cbn [file_urls total_bytes success failed disk trace
       set_total_bytes set_success set_failed set_disk set_trace fst snd].

Lemma world_eq (a b : world) :
  file_urls a = file_urls b → total_bytes a = total_bytes b →
  success a = success b → failed a = failed b →
  disk a = disk b → trace a = trace b → a = b.
Proof. destruct a, b; cbn; congruence. Qed.

(** Equality of two outcomes, field by field. *)
Ltac worlds :=
  first [apply world_eq | f_equal; apply world_eq];
  fields; rewrite <- ?app_assoc; try done.

(** Runs the program symbolically, splitting on what it inspects. *)
Ltac exec :=
  run;
  repeat (first [progress use_hyps | step]; run; rewrite ?write_chunks_run);
  fields.

Lemma stat_alter (f : node → node) (name k : string) (d : gmap string node) :
  stat (alter f name d) k
  = if decide (name = k) then f <$> stat d k else stat d k.
Proof.
  unfold stat. destruct (decide (k = "")) as [-> | Hk].
  - by destruct (decide (name = "")).
  - destruct (decide (name = k)) as [-> | Hne].
    + by rewrite lookup_alter_eq.
    + by rewrite lookup_alter_ne.
Qed.

Lemma stat_insert (n : node) (name k : string) (d : gmap string node) :
  name ≠ "" →
  stat (<[name := n]> d) k = if decide (name = k) then Some n else stat d k.
Proof.
  intros Hname. unfold stat. destruct (decide (k = "")) as [-> | Hk].
  - by destruct (decide (name = "")).
  - destruct (decide (name = k)) as [-> | Hne].
    + by rewrite lookup_insert_eq.
    + by rewrite lookup_insert_ne.
Qed.

Lemma is_dir_alter_append (data : chunk) (name k : string) (d : gmap string node) :
  is_dir (alter (append_data data) name d) k = is_dir d k.
Proof.
  unfold is_dir. rewrite stat_alter.
  destruct (decide (name = k)); [| reflexivity].
  by destruct (stat d k) as [[c | s] |].
Qed.

Lemma is_dir_insert_file (c : list Byte.byte) (name k : string)
    (d : gmap string node) :
  name ≠ "" → is_dir d name = false →
  is_dir (<[name := File c]> d) k = is_dir d k.
Proof.
  intros Hname Hd. unfold is_dir in *. rewrite stat_insert by done.
  destruct (decide (name = k)) as [<- | Hne]; [| reflexivity].
  by destruct (stat d name) as [[c' | s] |].
Qed.

Lemma node_size_nonneg (n : node) : 0 ≤ node_size n.
Proof. destruct n; cbn; lia. Qed.

(** Rewrites the lookups of the hypotheses down to the initial disk. *)
Ltac lookups :=
  repeat match goal with
  | H : context [stat (alter _ _ _) _] |- _ => rewrite stat_alter in H
  | H : context [stat (<[_ := _]> _) _] |- _ =>
      rewrite stat_insert in H by done
  | H : context [decide (?a = ?a)] |- _ =>
      destruct (decide (a = a)); [| contradiction]
  | H1 : stat ?d ?n = _, H2 : context [stat ?d ?n] |- _ => rewrite H1 in H2
  end.

Section Properties.
Variable md5_hexdigest : list Byte.byte → string.
Variable net : remote.

Lemma download_file_outcome (url : string) (e : option string) (w : world) :
  match download_file md5_hexdigest net url e w with
  | (r, w') =>
      file_urls w' = file_urls w
      ∧ (∀ k, is_dir (disk w') k = is_dir (disk w) k)
      ∧ total_bytes w ≤ total_bytes w'
      ∧ match r with
        | Return _ =>
            ∃ name, local_filename url = Some name
              ∧ (success w' = success w ++ [name] ∧ failed w' = failed w
                 ∨ success w' = success w ∧ failed w' = failed w ++ [url]
                   ∧ total_bytes w' = total_bytes w)
        | Raise x =>
            success w' = success w ∧ failed w' = failed w
            ∧ total_bytes w' = total_bytes w
            ∧ (x = ValueError InvalidURL ∧ local_filename url = None
               ∨ ∃ name, local_filename url = Some name ∧ x = OSError name
                   ∧ (name = "" ∨ is_dir (disk w) name = true))
        end
  end.
Proof.
  unfold download_file. destruct (local_filename url) as [name |] eqn:Hn.
  2:{ run. repeat split; try lia. by left. }
  unfold probe, transfer. exec.
  all: simplify_eq.
  all: try (cbn in *; discriminate).
  all: lookups.
  all: try (cbn in *; discriminate).
  all: repeat split; try reflexivity;
    try (match goal with
         | |- context [node_size ?n] => pose proof (node_size_nonneg n)
         end; lia).
  all: try (eexists; split; [reflexivity |];
            solve [left; split; reflexivity
                  | right; repeat split; reflexivity]).
  all: try (intros k; rewrite ?is_dir_alter_append;
            first [ reflexivity
                  | apply is_dir_insert_file; [assumption |];
                    unfold is_dir;
                    match goal with
                    | H : stat _ _ = _ |- _ => by rewrite H
                    end ]).
  all: right; eexists; split; [reflexivity |]; split; [reflexivity |];
    solve [by left
          | right; unfold is_dir;
            match goal with H : stat _ _ = _ |- _ => by rewrite H end].
Qed.

(** *** Progress *)

(** C9. For every pair of byte counts the progress computation returns
    normally: the division, which raises on a zero divisor, is not reached
    when [total] is 0, where 0 percent is reported; otherwise the
    percentage is downloaded / total * 100. *)
Theorem show_progress_never_divides_by_zero (downloaded total : Z) (w : world) :
  truediv downloaded 0 w = (Raise ZeroDivisionError, w)
  ∧ ∃ percent : Q,
      show_progress downloaded total w
      = (Return tt,
         set_trace (trace w ++ [Progress downloaded total percent]) w)
      ∧ percent = if decide (total = 0) then 0%Q
                  else (inject_Z downloaded / inject_Z total * 100)%Q.
Proof.
  split; [reflexivity |].
  eexists. split; [apply show_progress_run | reflexivity].
Qed.

(** *** The cookie *)

Lemma get_new_cookie_prompts (w : world) :
  ∃ evs, trace (get_new_cookie net w).2
         = trace w ++ Input :: Getpass :: evs.
Proof.
  unfold get_new_cookie. run.
  destruct (authorize net _ _) as [status |]; run.
  - destruct (decide (status = 200)); run; fields;
      rewrite <- ?app_assoc; cbn [app]; eauto.
  - fields. rewrite <- ?app_assoc; cbn [app]; eauto.
Qed.

(** C7. Validation accepts exactly status 200: then the method returns
    after the probe and the confirmation line, with no prompt.  On any
    other status, and on a transport error, the run continues with
    [get_new_cookie], whose first actions are the two prompts. *)
Theorem validation_decides_renewal (w : world) :
  (profile net = Some 200 →
   check_or_get_cookie net w
   = (Return tt,
      set_trace (trace w ++ [GetProfile; Print CookieValidated]) w))
  ∧ (∀ status, profile net = Some status → status ≠ 200 →
     check_or_get_cookie net w
     = get_new_cookie net
         (set_trace (trace w ++ [GetProfile; Print ObtainingCookie]) w))
  ∧ (profile net = None →
     check_or_get_cookie net w
     = get_new_cookie net
         (set_trace
            (trace w ++ [GetProfile;
                         Print (CookieValidationError ConnectionError);
                         Print ObtainingCookie]) w))
  ∧ (∀ w0, ∃ evs, trace (get_new_cookie net w0).2
                  = trace w0 ++ Input :: Getpass :: evs).
Proof.
  repeat split.
  - intros H. unfold check_or_get_cookie. run. rewrite H.
    exec; [| done]. worlds.
  - intros status H Hne. unfold check_or_get_cookie. run. rewrite H.
    exec; [done |]. worlds.
  - intros H. unfold check_or_get_cookie. run. rewrite H. exec. worlds.
  - apply get_new_cookie_prompts.
Qed.

(** *** A file that is already complete *)

(** The run of the method on a file whose size is the one the HEAD
    request reports. *)
Lemma download_file_already_complete (url : string) (e : option string)
    (w : world) (name : string) (content : list Byte.byte)
    (h : option string) :
  local_filename url = Some name →
  stat (disk w) name = Some (File content) →
  head net url = Some h →
  header_value h = Some (Z.of_nat (length content)) →
  supplied e = None ∨ supplied e = Some (md5_hexdigest content) →
  download_file md5_hexdigest net url e w
  = (Return tt,
     World (file_urls w) (total_bytes w + Z.of_nat (length content))
       (success w ++ [name]) (failed w) (disk w)
       (trace w ++ [Head url; Print (AlreadyComplete name)])).
Proof.
  intros Hn Hs Hh Hv He. unfold download_file. rewrite Hn.
  unfold probe. destruct He as [He | He]; exec; try done.
  all: worlds.
Qed.

(** C3. When the local file exists, its size equals the size the HEAD
    request reports and the optional checksum matches, the method returns
    having issued the HEAD request only (no GET appears in the trace):
    the disk is unchanged, the local filename is appended to the success
    list and the size of the file is added to the byte counter. *)
Theorem complete_file_is_not_fetched (url : string) (e : option string)
    (w : world) (name : string) (content : list Byte.byte)
    (h : option string) :
  local_filename url = Some name →
  stat (disk w) name = Some (File content) →
  head net url = Some h →
  header_value h = Some (Z.of_nat (length content)) →
  supplied e = None ∨ supplied e = Some (md5_hexdigest content) →
  match download_file md5_hexdigest net url e w with
  | (res, w') =>
      res = Return tt
      ∧ trace w' = trace w ++ [Head url; Print (AlreadyComplete name)]
      ∧ (∀ u range, Get u range ∉ [Head url; Print (AlreadyComplete name)])
      ∧ disk w' = disk w
      ∧ success w' = success w ++ [name]
      ∧ failed w' = failed w
      ∧ total_bytes w' = total_bytes w + Z.of_nat (length content)
      ∧ file_urls w' = file_urls w
  end.
Proof.
  intros Hn Hs Hh Hv He.
  rewrite (download_file_already_complete url e w name content h)
    by assumption.
  split_and!; try reflexivity.
  intros u range Hin.
  apply elem_of_cons in Hin as [Hin | Hin]; [discriminate |].
  apply elem_of_cons in Hin as [Hin | Hin]; [discriminate |].
  by apply elem_of_nil in Hin.
Qed.

(** *** The body transfer *)

(** The two ways the method reaches the body GET: there is no local
    entry, or there is a local file whose size differs from the one the
    HEAD request reports.  [old] is the local content before the GET and
    [range] the [Range] header sent. *)
Definition reaches_get (url name : string) (w : world)
    (old : list Byte.byte) (range : option string) : Prop :=
  (stat (disk w) name = None ∧ old = [] ∧ range = None)
  ∨ (∃ h total,
       stat (disk w) name = Some (File old)
       ∧ head net url = Some h
       ∧ header_value h = Some total
       ∧ total ≠ Z.of_nat (length old)
       ∧ range = Some (range_from (Z.of_nat (length old)))).

(** What lines 107-122 leave in the trace on these two ways. *)
Definition probe_events (url name : string) (range : option string)
    : list event :=
  match range with
  | None => [Print (Downloading url)]
  | Some _ => [Head url; Print (Restarting name)]
  end.

Lemma download_file_reaches_get (url : string) (e : option string)
    (w : world) (name : string) (old : list Byte.byte)
    (range : option string) :
  local_filename url = Some name →
  reaches_get url name w old range →
  download_file md5_hexdigest net url e w
  = try_except
      (transfer md5_hexdigest net url name e (Z.of_nat (length old)) range)
      caught
      (λ x, modify (λ w, set_failed (failed w ++ [url]) w);;
            print (FailedToDownload url x))
      (set_trace (trace w ++ probe_events url name range) w).
Proof.
  intros Hn [(Hs & -> & ->) | (h & total & Hs & Hh & Hv & Hne & ->)];
    unfold download_file; rewrite Hn; unfold probe.
  - run. rewrite Hs. run. reflexivity.
  - run. repeat (progress use_hyps; run). cbn [node_size].
    destruct (decide (Z.of_nat (length old) = total)) as [Heq | _];
      [by subst |].
    run. unfold probe_events.
    replace (set_trace ((trace w ++ [Head url]) ++ [Print (Restarting name)])
               (set_trace (trace w ++ [Head url]) w))
      with (set_trace (trace w ++ [Head url; Print (Restarting name)]) w);
      [reflexivity | worlds].
Qed.

Lemma progress_events_Forall (P : event → Prop) (cs : list chunk)
    (downloaded total : Z) :
  (∀ d q, P (Progress d total q)) →
  Forall P (progress_events cs downloaded total).
Proof.
  intros HP. revert downloaded.
  induction cs as [| [| b c] cs IH]; intros downloaded; cbn.
  - constructor.
  - apply IH.
  - constructor; [apply HP | apply IH].
Qed.

Ltac all_events :=
  repeat match goal with
         | |- Forall _ [] => constructor
         | |- Forall _ (_ :: _) => constructor; [cbn; done |]
         | |- Forall _ (progress_events _ _ _) =>
             apply progress_events_Forall; intros; cbn; done
         | |- Forall _ (_ ++ _) => apply Forall_app; split
         end.

(** Puts a trace in the form [trace w ++ e1 :: e2 :: ...]. *)
Ltac flat := rewrite <- ?app_assoc; cbn [app probe_events].

(** Brings the facts collected by [exec] into a plain form. *)
Ltac tidy :=
  repeat match goal with
         | H : decide _ = _ |- _ => clear H
         | H : ¬ (_ ≠ _) |- _ => apply dec_stable in H
         end;
  lookups;
  repeat match goal with
         | H : context [_ <$> Some _] |- _ =>
             cbn [fmap option_fmap option_map append_data] in H
         end;
  simplify_eq;
  cbn [app length node_size default] in *.

(** The run of the method when the response to the body GET has a client
    or server error status. *)
Lemma download_file_error_status (url : string)
    (e : option string) (w : world) (name : string)
    (old : list Byte.byte) (range : option string) (r : response) :
  local_filename url = Some name →
  reaches_get url name w old range →
  get net url range = Some r →
  400 ≤ status_code r < 600 →
  download_file md5_hexdigest net url e w
  = (Return tt,
     World (file_urls w) (total_bytes w) (success w) (failed w ++ [url])
       (disk w)
       (trace w ++ probe_events url name range
          ++ [Get url range;
              Print (FailedToDownload url (HTTPError (status_code r)))])).
Proof.
  intros Hn Hreach Hget Hstatus.
  rewrite (download_file_reaches_get _ _ _ _ _ _ Hn Hreach).
  assert ((400 <=? status_code r) && (status_code r <? 600) = true) as Hb
    by (apply andb_true_intro; split; [apply Z.leb_le | apply Z.ltb_lt]; lia).
  unfold transfer. exec. worlds.
Qed.

Lemma stat_Some (d : gmap string node) (name : string) (n : node) :
  stat d name = Some n → name ≠ "" ∧ d !! name = Some n.
Proof. unfold stat. by destruct (decide (name = "")). Qed.

Lemma written_fresh (data : chunk) (name : string) (d : gmap string node) :
  alter (append_data data) name (<[name := File []]> d)
  = <[name := File data]> d.
Proof.
  apply map_eq; intros k. destruct (decide (name = k)) as [-> | Hne].
  - by rewrite lookup_alter_eq, !lookup_insert_eq.
  - by rewrite lookup_alter_ne, !lookup_insert_ne.
Qed.

Lemma written_append (old : list Byte.byte) (data : chunk) (name : string)
    (d : gmap string node) :
  d !! name = Some (File old) →
  alter (append_data data) name d = <[name := File (old ++ data)]> d.
Proof.
  intros Hd. apply map_eq; intros k.
  destruct (decide (name = k)) as [<- | Hne].
  - by rewrite lookup_alter_eq, lookup_insert_eq, Hd.
  - by rewrite lookup_alter_ne, lookup_insert_ne.
Qed.

(** The world after a body transfer whose stream has ended: the file
    holds [data], the trace has grown by [evs], and the target is recorded
    in one of the two lists. *)
Definition fetched (w : world) (name : string) (data : list Byte.byte)
    (evs : list event) (bytes : Z) (ok bad : list string) : world :=
  World (file_urls w) (total_bytes w + bytes) (success w ++ ok)
    (failed w ++ bad) (<[name := File data]> (disk w)) (trace w ++ evs).

(** Symbolic run of the method from the body GET on, for a response
    without error status whose stream ends. *)
Lemma download_file_streams (url : string) (e : option string) (w : world)
    (name : string) (old : list Byte.byte) (range : option string)
    (r : response) (n : Z) :
  local_filename url = Some name →
  name ≠ "" →
  reaches_get url name w old range →
  get net url range = Some r →
  (400 <=? status_code r) && (status_code r <? 600) = false →
  header_value (content_length r) = Some n →
  broken r = false →
  let local_size := Z.of_nat (length old) in
  let data := old ++ concat (chunks r) in
  let total_size := n + local_size in
  let downloaded_size := local_size + Z.of_nat (length (concat (chunks r))) in
  let evs :=
    probe_events url name range
    ++ [Get url range; Open name (if decide (local_size > 0) then AB else WB)]
    ++ progress_events (chunks r) local_size total_size in
  let failure x :=
    fetched w name data (evs ++ [Print (FailedToDownload url x)]) 0 [] [url] in
  download_file md5_hexdigest net url e w
  = (Return tt,
     if decide (downloaded_size ≠ total_size) then
       fetched w name data
         (evs ++ [Print (NotComplete name);
                  Print (FailedToDownload url
                           (ValueError
                              (SizeMismatch downloaded_size total_size)))])
         0 [] [url]
     else if decide (supplied e = None ∨ supplied e = Some (md5_hexdigest data))
     then
       fetched w name data
         (evs ++ [Print (Downloaded name (Z.of_nat (length data)))])
         (Z.of_nat (length data)) [name] []
     else
       failure (ValueError (MD5Mismatch name (default "" (supplied e))
                              (md5_hexdigest data)))).
Proof.
  intros Hn Hname Hreach Hget Hstatus Hlen Hbroken.
  rewrite (download_file_reaches_get _ _ _ _ _ _ Hn Hreach).
  destruct Hreach as [(Hs & -> & ->) | (h & total & Hs & Hh & Hv & Hne & ->)];
    cbv zeta; unfold transfer; exec.
  all: try match goal with
           | H : ¬ Z.of_nat (length ?o) > 0 |- _ =>
               is_var o; destruct o; [| exfalso; cbn [length] in H; lia]
           end.
  all: tidy.
  all: try (exfalso; congruence).
  all: try (exfalso; rewrite ?length_app, ?Nat2Z.inj_add in *; lia).
  all: try (exfalso;
            match goal with
            | H : _ ∨ _ |- _ => destruct H; congruence
            | H : ¬ (_ ∨ _) |- _ => apply H; first [by left | right; congruence]
            end).
  all: try match goal with
           | H : stat _ _ = Some _ |- _ => apply stat_Some in H as [_ H]
           end.
  all: unfold fetched; worlds.
  all: rewrite ?app_nil_r, ?Z.add_0_r, ?written_fresh; try reflexivity.
  all: try (by erewrite written_append by eassumption).
Qed.

(** The events of a body transfer whose progress lines all show the
    expected total. *)
Definition shows_total (expected : Z) (ev : event) : Prop :=
  match ev with
  | Progress _ total _ => total = expected
  | _ => True
  end.

Lemma stat_written (name : string) (data : list Byte.byte)
    (d : gmap string node) :
  name ≠ "" → stat (<[name := File data]> d) name = Some (File data).
Proof.
  intros Hname. rewrite stat_insert by done.
  by destruct (decide (name = name)).
Qed.

(** Lines 124-152 for given values of [local_size] and of the [Range]
    header: the body of the [try] from the GET on, under the [except]
    clause. *)
Definition from_get (url name : string) (e : option string)
    (local_size : Z) (range : option string) : M unit :=
  try_except (transfer md5_hexdigest net url name e local_size range)
    caught
    (λ x, modify (λ w, set_failed (failed w ++ [url]) w);;
          print (FailedToDownload url x)).

(** The content of the local file right after [open]: nothing when the
    file is new or is opened with ['wb'], what it holds when it is opened
    with ['ab']. *)
Definition content_after_open (d : gmap string node) (name : string)
    (local_size : Z) (current : list Byte.byte) : Prop :=
  (stat d name = None ∧ current = [])
  ∨ (∃ actual, stat d name = Some (File actual)
               ∧ current = if decide (local_size > 0) then actual else []).

(** Symbolic run from the GET on, for a response without error status
    whose stream ends, whatever [local_size] was measured before. *)
Lemma from_get_streams (url : string) (e : option string) (w : world)
    (name : string) (current : list Byte.byte) (local_size : Z)
    (range : option string) (r : response) (n : Z) :
  name ≠ "" →
  content_after_open (disk w) name local_size current →
  get net url range = Some r →
  (400 <=? status_code r) && (status_code r <? 600) = false →
  header_value (content_length r) = Some n →
  broken r = false →
  let data := current ++ concat (chunks r) in
  let file_size := Z.of_nat (length data) in
  let total_size := n + local_size in
  let downloaded_size :=
    local_size + Z.of_nat (length (concat (chunks r))) in
  let evs :=
    [Get url range; Open name (if decide (local_size > 0) then AB else WB)]
    ++ progress_events (chunks r) local_size total_size in
  let failure x :=
    fetched w name data (evs ++ [Print (FailedToDownload url x)]) 0 [] [url] in
  from_get url name e local_size range w
  = (Return tt,
     if decide (downloaded_size ≠ total_size) then
       fetched w name data
         (evs ++ [Print (NotComplete name);
                  Print (FailedToDownload url
                           (ValueError
                              (SizeMismatch downloaded_size total_size)))])
         0 [] [url]
     else if decide (file_size ≠ total_size) then
       failure (ValueError (FinalSizeMismatch file_size total_size))
     else if decide (supplied e = None
                     ∨ supplied e = Some (md5_hexdigest data))
     then
       fetched w name data (evs ++ [Print (Downloaded name file_size)])
         file_size [name] []
     else
       failure (ValueError (MD5Mismatch name (default "" (supplied e))
                              (md5_hexdigest data)))).
Proof.
  intros Hname Hopen Hget Hstatus Hlen Hbroken.
  unfold from_get, transfer.
  destruct Hopen as [[Hs ->] | (actual & Hs & ->)]; cbv zeta; exec.
  all: tidy.
  all: try (exfalso; congruence).
  all: try (exfalso;
            match goal with
            | H : _ ∨ _ |- _ => destruct H; congruence
            | H : ¬ (_ ∨ _) |- _ => apply H; first [by left | right; congruence]
            end).
  all: try match goal with
           | H : stat _ _ = Some _ |- _ => apply stat_Some in H as [_ H]
           end.
  all: unfold fetched; worlds.
  all: rewrite ?app_nil_r, ?Z.add_0_r, ?written_fresh; try reflexivity.
  all: try (by erewrite written_append by eassumption).
Qed.

(** C4. From the body GET on, for a response without error status whose
    stream ends: the expected total is the Content-Length of the response
    plus the local size measured before the GET, and every progress line
    shows it.  When the streamed byte count at the end of the stream
    differs from it, and also when that count agrees but the size of the
    file read again from the directory differs from it, the URL is
    recorded in the failure list, nothing else is recorded, and the
    diagnostic carries the two sizes.  In a run of [download_file] the
    measured local size is the size of the content the file is opened
    with. *)
Theorem size_is_checked_against_expected_total (url : string)
    (e : option string) (w : world) (name : string)
    (current : list Byte.byte) (local_size : Z) (range : option string)
    (r : response) (n : Z) :
  name ≠ "" →
  content_after_open (disk w) name local_size current →
  get net url range = Some r →
  (400 <=? status_code r) && (status_code r <? 600) = false →
  header_value (content_length r) = Some n →
  broken r = false →
  let expected := n + local_size in
  let streamed := local_size + Z.of_nat (length (concat (chunks r))) in
  let on_disk := current ++ concat (chunks r) in
  let diagnostic v := Print (FailedToDownload url (ValueError v)) in
  match from_get url name e local_size range w with
  | (res, w') =>
      stat (disk w') name = Some (File on_disk)
      ∧ (∃ evs,
           trace w' = trace w ++ evs
           ∧ Forall (shows_total expected) evs
           ∧ (streamed ≠ expected →
              last evs = Some (diagnostic (SizeMismatch streamed expected)))
           ∧ (streamed = expected →
              Z.of_nat (length on_disk) ≠ expected →
              last evs
              = Some (diagnostic
                        (FinalSizeMismatch (Z.of_nat (length on_disk))
                           expected))))
      ∧ (streamed ≠ expected ∨ Z.of_nat (length on_disk) ≠ expected →
         res = Return tt
         ∧ failed w' = failed w ++ [url]
         ∧ success w' = success w
         ∧ total_bytes w' = total_bytes w)
  end
  ∧ (∀ w0 old,
       local_filename url = Some name →
       reaches_get url name w0 old range →
       content_after_open (disk w0) name (Z.of_nat (length old)) old
       ∧ download_file md5_hexdigest net url e w0
         = from_get url name e (Z.of_nat (length old)) range
             (set_trace (trace w0 ++ probe_events url name range) w0)).
Proof.
  intros Hname Hopen Hget Hstatus Hlen Hbroken expected streamed on_disk
    diagnostic.
  split.
  - rewrite (from_get_streams _ e _ _ _ _ _ _ _
               Hname Hopen Hget Hstatus Hlen Hbroken).
    subst expected streamed on_disk diagnostic. cbv zeta.
    destruct (decide (_ ≠ _)) as [Hsize | Hsize];
      [| destruct (decide (_ ≠ _)) as [Hfinal | Hfinal];
         [| destruct (decide (_ ∨ _)) as [Hmd5 | Hmd5]]];
      unfold fetched; fields;
      (split; [by apply stat_written |]);
      (split;
       [eexists; split; [reflexivity |];
        split; [repeat (apply Forall_app; split); try done; all_events |]
       |]).
    all: rewrite ?last_app; cbn [last].
    all: try (split; [done | intros; done]).
    all: try (split; [intros; done | done]).
    all: try (intros _; rewrite app_nil_r; split_and!; [done .. | lia]).
    all: try (intros [? | ?]; done).
  - intros w0 old Hn Hreach. split.
    + destruct Hreach as [(Hs & -> & _) | (h & total & Hs & _)];
        [by left |].
      right. exists old. split; [done |].
      destruct (decide (Z.of_nat (length old) > 0)) as [| Hz]; [done |].
      destruct old; [done | cbn [length] in Hz; lia].
    + by apply download_file_reaches_get.
Qed.

(** *** Resuming *)

(** What may follow the resumed GET in the trace: no further request, and
    no [open] other than that of the local file in the given mode. *)
Definition after_get (name : string) (mode : open_mode) (ev : event) : Prop :=
  match ev with
  | Head _ | Get _ _ => False
  | Open f m => f = name ∧ m = mode
  | _ => True
  end.

Lemma not_appended {A} (l : list A) (x : A) : l ≠ l ++ [x].
Proof.
  intros H. apply (f_equal length) in H.
  rewrite length_app in H. cbn in H. lia.
Qed.

(** C2, as the code has it.  When the local file exists with a size S that
    differs from the total the HEAD request reports, the one body GET
    carries [Range: bytes=S-], and the file is opened for append when
    S > 0 and for writing when it is empty.  If the target is recorded as
    a success, the file then holds the old content followed by the body,
    and its size is S plus the Content-Length of the GET response. *)
Theorem resumed_request_asks_for_the_remainder (url : string)
    (e : option string) (w : world) (name : string)
    (old : list Byte.byte) (h : option string) (total : Z) :
  local_filename url = Some name →
  stat (disk w) name = Some (File old) →
  head net url = Some h →
  header_value h = Some total →
  total ≠ Z.of_nat (length old) →
  let range := Some (range_from (Z.of_nat (length old))) in
  let mode := if decide (Z.of_nat (length old) > 0) then AB else WB in
  match download_file md5_hexdigest net url e w with
  | (res, w') =>
      ∃ evs,
        trace w' = trace w ++ [Head url; Print (Restarting name);
                               Get url range] ++ evs
        ∧ Forall (after_get name mode) evs
        ∧ (success w' = success w ++ [name] →
           ∃ r n,
             get net url range = Some r
             ∧ header_value (content_length r) = Some n
             ∧ stat (disk w') name
               = Some (File (old ++ concat (chunks r)))
             ∧ Z.of_nat (length (old ++ concat (chunks r)))
               = Z.of_nat (length old) + n)
  end.
Proof.
  intros Hn Hs Hh Hv Hne range mode.
  assert (reaches_get url name w old range) as Hreach
    by (right; eauto 10).
  rewrite (download_file_reaches_get _ _ _ _ _ _ Hn Hreach).
  subst range mode. clear Hreach. unfold transfer. exec.
  all: try match goal with
           | H : ¬ Z.of_nat (length ?o) > 0 |- _ =>
               is_var o; destruct o; [| exfalso; cbn [length] in H; lia]
           end.
  all: tidy.
  all: try (exfalso; congruence).
  all: try (exfalso; rewrite ?length_app, ?Nat2Z.inj_add in *; lia).
  all: eexists; (split; [flat; reflexivity |]); (split; [all_events |]).
  all: intros Hok; try (by apply not_appended in Hok).
  all: eexists _, _; split_and!; [reflexivity | eassumption | reflexivity | lia].
Qed.

(** *** Integrity *)

(** A target is recorded as a success only after the digest of the local
    file has been compared with the expected one. *)
Lemma success_is_verified (url : string) (e : option string) (w : world)
    (name expected : string) :
  local_filename url = Some name →
  supplied e = Some expected →
  match download_file md5_hexdigest net url e w with
  | (res, w') =>
      success w' = success w ++ [name] →
      ∃ content,
        stat (disk w') name = Some (File content)
        ∧ md5_hexdigest content = expected
  end.
Proof.
  intros Hn He. unfold download_file. rewrite Hn.
  unfold probe, transfer. exec.
  all: intros Hok; try (by apply not_appended in Hok).
  all: tidy.
  all: try (exfalso; congruence).
  all: eexists; split; reflexivity.
Qed.

Lemma supplied_nonempty (expected : string) :
  expected ≠ "" → supplied (Some expected) = Some expected.
Proof. by destruct expected. Qed.

(** C5. Verification does nothing when the expected checksum is absent or
    empty.  When one is supplied and the digest of the file differs, it
    raises a [ValueError] that carries both digests; and whenever the
    local file ends a run of [download_file] with a digest other than the
    expected one, whatever its size, the method returns normally with the
    URL appended to the failure list, the success list and the byte
    counter unchanged. *)
Theorem checksum_mismatch_fails_the_target (url name expected : string)
    (w : world) :
  expected ≠ "" →
  local_filename url = Some name →
  (∀ w0, verify_file_integrity md5_hexdigest name None w0 = (Return tt, w0)
         ∧ verify_file_integrity md5_hexdigest name (Some "") w0
           = (Return tt, w0))
  ∧ (∀ w0 content,
       stat (disk w0) name = Some (File content) →
       md5_hexdigest content ≠ expected →
       verify_file_integrity md5_hexdigest name (Some expected) w0
       = (Raise (ValueError
                   (MD5Mismatch name expected (md5_hexdigest content))),
          w0))
  ∧ match download_file md5_hexdigest net url (Some expected) w with
    | (res, w') =>
        ∀ content,
          stat (disk w') name = Some (File content) →
          md5_hexdigest content ≠ expected →
          res = Return tt
          ∧ failed w' = failed w ++ [url]
          ∧ success w' = success w
          ∧ total_bytes w' = total_bytes w
    end.
Proof.
  intros Hexp Hn. split_and!.
  - intros w0. split; reflexivity.
  - intros w0 content Hs Hne. unfold verify_file_integrity.
    rewrite (supplied_nonempty _ Hexp). run. rewrite Hs. run.
    by destruct (decide (md5_hexdigest content ≠ expected)).
  - pose proof (download_file_outcome url (Some expected) w) as Hout.
    pose proof (success_is_verified url (Some expected) w name expected Hn
                  (supplied_nonempty _ Hexp)) as Hok.
    destruct (download_file md5_hexdigest net url (Some expected) w)
      as [res w'].
    destruct Hout as (_ & Hdirs & _ & Hres).
    intros content Hs Hne. destruct res as [[] | x].
    + destruct Hres as (name' & Hn' & [[Hsucc Hfail] | (? & ? & ?)]);
        [| done].
      assert (name' = name) as -> by congruence.
      destruct (Hok Hsucc) as (c & Hc & Hmd5). congruence.
    + destruct Hres as (_ & _ & _ & [[_ Hnone] | (name' & Hn' & _ & Hbad)]);
        [congruence |].
      assert (name' = name) as -> by congruence. exfalso.
      destruct Hbad as [-> | Hdir].
      * unfold stat in Hs. by destruct (decide ("" = "")).
      * specialize (Hdirs name). unfold is_dir in Hdirs, Hdir.
        rewrite Hs in Hdirs. by destruct (stat (disk w) name) as [[] |].
Qed.

(** *** What is recorded *)

(** The derived local filename never contains a slash. *)
Lemma mem_after_last (c : ascii) (s : string) :
  Str.mem c (Str.after_last c s) = false.
Proof.
  induction s as [| a s IH]; [done |]. cbn [Str.after_last].
  destruct (Str.mem c s) eqn:Hm; [done |].
  destruct (Ascii.eqb a c) eqn:Ha; [done |].
  cbn [Str.mem]. by rewrite Ha, Hm.
Qed.

Lemma local_filename_without_slash (url name : string) :
  local_filename url = Some name → Str.mem "/" name = false.
Proof.
  unfold local_filename, basename. intros H.
  destruct (UrlParse.path url) as [p |]; [| done].
  injection H as <-. apply mem_after_last.
Qed.

Lemma url_with_slash_is_not_its_filename (url : string) :
  Str.mem "/" url = true → local_filename url ≠ Some url.
Proof.
  intros Hslash H. apply local_filename_without_slash in H. congruence.
Qed.

(** C8, as the code has it.  A call appends the derived local filename to
    the success list, or the URL to the failure list, or (when an
    exception escapes) nothing.  When the URL differs from its derived
    filename, as every URL with a slash does, the entry appended to the
    success list is not the URL and the entry appended to the failure
    list is not the filename. *)
Theorem entries_are_filename_or_url (url : string) (e : option string)
    (w : world) :
  (Str.mem "/" url = true → local_filename url ≠ Some url)
  ∧ match download_file md5_hexdigest net url e w with
    | (res, w') =>
        ((∃ name, local_filename url = Some name
                  ∧ success w' = success w ++ [name]
                  ∧ failed w' = failed w)
         ∨ (success w' = success w ∧ failed w' = failed w ++ [url])
         ∨ (success w' = success w ∧ failed w' = failed w
            ∧ ∃ x, res = Raise x))
        ∧ (local_filename url ≠ Some url →
           success w' ≠ success w ++ [url]
           ∧ ∀ name, local_filename url = Some name →
                     failed w' ≠ failed w ++ [name])
    end.
Proof.
  split; [apply url_with_slash_is_not_its_filename |].
  pose proof (download_file_outcome url e w) as Hout.
  destruct (download_file md5_hexdigest net url e w) as [res w'].
  destruct Hout as (_ & _ & _ & Hres).
  destruct res as [[] | x].
  - destruct Hres as (name & Hn & [[Hs Hf] | (Hs & Hf & _)]).
    + split; [left; eauto |]. intros Hne. rewrite Hs, Hf. split.
      * intros H. apply app_inv_head in H. congruence.
      * intros name' _. apply not_appended.
    + split; [right; left; eauto |]. intros Hne. rewrite Hs, Hf. split.
      * apply not_appended.
      * intros name' Hn' H. apply app_inv_head in H. congruence.
  - destruct Hres as (Hs & Hf & _ & _).
    split; [right; right; eauto |]. intros _. rewrite Hs, Hf.
    split; [| intros name _]; apply not_appended.
Qed.

(** *** The batch *)

(** [recorded urls s f]: going through [urls] in order, each target put
    either its local filename into [s] or its URL into [f]. *)
Inductive recorded : list string → list string → list string → Prop :=
| recorded_nil : recorded [] [] []
| recorded_success url name urls s f :
    local_filename url = Some name →
    recorded urls s f → recorded (url :: urls) (name :: s) f
| recorded_failure url urls s f :
    recorded urls s f → recorded (url :: urls) s (url :: f).

Lemma recorded_length (urls s f : list string) :
  recorded urls s f → (length s + length f = length urls)%nat.
Proof. induction 1; cbn; lia. Qed.



(** The targets whose local file can be opened: the derived name is not
    empty and does not name a directory. *)
Definition writable (d : gmap string node) (url : string) : Prop :=
  ∃ name, local_filename url = Some name ∧ name ≠ "" ∧ is_dir d name = false.

Lemma for_each_records (urls : list string) :
  ∀ w, Forall (writable (disk w)) urls →
    ∃ w' s f,
      for_each urls (λ url, download_file md5_hexdigest net url None) w
      = (Return tt, w')
      ∧ recorded urls s f
      ∧ success w' = success w ++ s
      ∧ failed w' = failed w ++ f
      ∧ total_bytes w ≤ total_bytes w'.
Proof.
  induction urls as [| url urls IH]; intros w Hw.
  - exists w, [], []. rewrite !app_nil_r.
    split_and!; [done | constructor | done | done | lia].
  - apply Forall_cons in Hw as [(name & Hn & Hname & Hdir) Hw].
    cbn [for_each]. run.
    pose proof (download_file_outcome url None w) as Hout.
    destruct (download_file md5_hexdigest net url None w) as [res w1].
    destruct Hout as (_ & Hdirs & Hle & Hres).
    assert (Forall (writable (disk w1)) urls) as Hw1.
    { eapply Forall_impl; [exact Hw |].
      intros u (nm & ? & ? & ?). exists nm. by rewrite Hdirs. }
    destruct res as [[] | x].
    + destruct (IH w1 Hw1) as (w' & s & f & Hrun & Hrec & Hs & Hf & Hle').
      destruct Hres as (name' & Hn' & [[Hs1 Hf1] | (Hs1 & Hf1 & _)]).
      * exists w', (name' :: s), f. rewrite Hrun, Hs, Hf, Hs1, Hf1.
        rewrite <- app_assoc.
        split_and!; [done | by constructor | done | done | lia].
      * exists w', s, (url :: f). rewrite Hrun, Hs, Hf, Hs1, Hf1.
        rewrite <- app_assoc.
        split_and!; [done | by constructor | done | done | lia].
    + exfalso.
      destruct Hres as (_ & _ & _ & [[_ ?] | (nm & ? & _ & [-> | ?])]);
        congruence.
Qed.






(** *** Two targets with one local name *)

(** C10. Let two distinct URLs have the same derived filename, with no
    such local file at the start.  If the first target is downloaded
    completely and the HEAD request for the second reports the size of
    that file, the batch records the filename twice as a success and
    counts the bytes of the first file twice; after the first transfer
    the only request is the HEAD for the second URL, whose content is
    never fetched. *)
Theorem shared_filename_is_taken_for_a_finished_download
    (u1 u2 name : string) (w : world) (r : response) (h : option string) :
  u1 ≠ u2 →
  local_filename u1 = Some name →
  local_filename u2 = Some name →
  name ≠ "" →
  file_urls w = [u1; u2] →
  stat (disk w) name = None →
  get net u1 None = Some r →
  (400 <=? status_code r) && (status_code r <? 600) = false →
  header_value (content_length r)
  = Some (Z.of_nat (length (concat (chunks r)))) →
  broken r = false →
  head net u2 = Some h →
  header_value h = Some (Z.of_nat (length (concat (chunks r)))) →
  let size := Z.of_nat (length (concat (chunks r))) in
  download_files md5_hexdigest net w
  = (Return tt,
     World [u1; u2] (total_bytes w + size + size)
       (success w ++ [name; name]) (failed w)
       (<[name := File (concat (chunks r))]> (disk w))
       (trace w
        ++ [Print (Downloading u1); Get u1 None; Open name WB]
        ++ progress_events (chunks r) 0 size
        ++ [Print (Downloaded name size);
            Head u2; Print (AlreadyComplete name)])).
Proof.
  intros Hne Hn1 Hn2 Hname Hurls Hs Hget Hstatus Hlen Hbroken Hh Hv size.
  unfold download_files. run. rewrite Hurls. cbn [for_each]. run.
  assert (reaches_get u1 name w [] None) as Hreach by (by left).
  rewrite (download_file_streams _ None _ _ _ _ _ _
             Hn1 Hname Hreach Hget Hstatus Hlen Hbroken).
  cbv zeta. cbn [length app probe_events supplied].
  destruct (decide (_ ≠ _)) as [Hbad | _]; [exfalso; lia |].
  destruct (decide (_ ∨ _)) as [_ | Hbad]; [| exfalso; apply Hbad; by left].
  destruct (decide (Z.of_nat 0 > 0)) as [Hbad | _]; [exfalso; lia |].
  erewrite (download_file_already_complete u2 None _ name _ h Hn2);
    [| by apply stat_written | done | done | by left].
  unfold fetched. subst size. worlds.
  - by rewrite app_nil_r.
  - cbn [length app]. rewrite Z.add_0_r, <- app_assoc. reflexivity.
Qed.

(** ** Further properties of [download_file] *)

(** *** Requests that fail before the file is opened *)

(** What a caught exception leaves behind when nothing was opened: the
    URL in the failure list and the diagnostic after [evs]. *)
Definition refused (url : string) (w : world) (evs : list event) (x : exn)
    : result unit * world :=
  (Return tt,
   World (file_urls w) (total_bytes w) (success w) (failed w ++ [url])
     (disk w) (trace w ++ evs ++ [Print (FailedToDownload url x)])).

(** X1. When the body GET raises a [RequestException], or is answered without
    an error status but with a [Content-Length] that [int] rejects, the
    URL is recorded as failed and the method returns: the local file is
    not opened, and the directory, the success list and the byte counter
    are as before. *)
Theorem failed_get_leaves_the_directory_untouched (url : string)
    (e : option string) (w : world) (name : string)
    (old : list Byte.byte) (range : option string) :
  local_filename url = Some name →
  reaches_get url name w old range →
  (get net url range = None →
   download_file md5_hexdigest net url e w
   = refused url w (probe_events url name range ++ [Get url range])
       ConnectionError)
  ∧ (∀ r,
       get net url range = Some r →
       (400 <=? status_code r) && (status_code r <? 600) = false →
       header_value (content_length r) = None →
       download_file md5_hexdigest net url e w
       = refused url w (probe_events url name range ++ [Get url range])
           (ValueError (InvalidLiteral (default "" (content_length r))))).
Proof.
  intros Hn Hreach. split.
  - intros Hget.
    rewrite (download_file_reaches_get _ _ _ _ _ _ Hn Hreach).
    unfold transfer, refused. exec. worlds.
  - intros r Hget Hstatus Hlen.
    rewrite (download_file_reaches_get _ _ _ _ _ _ Hn Hreach).
    unfold transfer, refused. exec. worlds.
Qed.

(** X2. When the local entry exists (a file or a directory) and the HEAD
    request raises a [RequestException], or reports a [Content-Length]
    that [int] rejects, the URL is recorded as failed with no GET issued,
    and the directory, the success list and the byte counter are as
    before. *)
Theorem failed_head_issues_no_get (url : string) (e : option string)
    (w : world) (name : string) (n : node) :
  local_filename url = Some name →
  stat (disk w) name = Some n →
  (head net url = None →
   download_file md5_hexdigest net url e w
   = refused url w [Head url] ConnectionError)
  ∧ (∀ h,
       head net url = Some h →
       header_value h = None →
       download_file md5_hexdigest net url e w
       = refused url w [Head url]
           (ValueError (InvalidLiteral (default "" h)))).
Proof.
  intros Hn Hs. split.
  - intros Hh. unfold download_file, refused. rewrite Hn.
    unfold probe. exec. worlds.
  - intros h Hh Hv. unfold download_file, refused. rewrite Hn.
    unfold probe. exec. worlds.
Qed.

(** *** A stream that breaks *)

(** The run of the method when the body stream raises a
    [RequestException] after the chunks of [r]. *)
Lemma download_file_stream_breaks (url : string) (e : option string)
    (w : world) (name : string) (old : list Byte.byte)
    (range : option string) (r : response) (n : Z) :
  local_filename url = Some name →
  name ≠ "" →
  reaches_get url name w old range →
  get net url range = Some r →
  (400 <=? status_code r) && (status_code r <? 600) = false →
  header_value (content_length r) = Some n →
  broken r = true →
  let local_size := Z.of_nat (length old) in
  download_file md5_hexdigest net url e w
  = (Return tt,
     fetched w name (old ++ concat (chunks r))
       (probe_events url name range
        ++ [Get url range;
            Open name (if decide (local_size > 0) then AB else WB)]
        ++ progress_events (chunks r) local_size (n + local_size)
        ++ [Print (FailedToDownload url ConnectionError)])
       0 [] [url]).
Proof.
  intros Hn Hname Hreach Hget Hstatus Hlen Hbroken.
  rewrite (download_file_reaches_get _ _ _ _ _ _ Hn Hreach).
  destruct Hreach as [(Hs & -> & ->) | (h & total & Hs & Hh & Hv & Hne & ->)];
    cbv zeta; unfold transfer; exec.
  all: try match goal with
           | H : ¬ Z.of_nat (length ?o) > 0 |- _ =>
               is_var o; destruct o; [| exfalso; cbn [length] in H; lia]
           end.
  all: tidy.
  all: try (exfalso; congruence).
  all: try match goal with
           | H : stat _ _ = Some _ |- _ => apply stat_Some in H as [_ H]
           end.
  all: unfold fetched; worlds.
  all: rewrite ?app_nil_r, ?Z.add_0_r, ?written_fresh; try reflexivity.
  all: try (by erewrite written_append by eassumption).
Qed.

(** X3. When the body stream breaks, the URL is recorded as failed and the
    chunks received so far stay in the local file, after its previous
    content: the success list and the byte counter are as before. *)
Theorem broken_stream_keeps_the_received_bytes (url : string)
    (e : option string) (w : world) (name : string)
    (old : list Byte.byte) (range : option string) (r : response) (n : Z) :
  local_filename url = Some name →
  name ≠ "" →
  reaches_get url name w old range →
  get net url range = Some r →
  (400 <=? status_code r) && (status_code r <? 600) = false →
  header_value (content_length r) = Some n →
  broken r = true →
  match download_file md5_hexdigest net url e w with
  | (res, w') =>
      res = Return tt
      ∧ stat (disk w') name = Some (File (old ++ concat (chunks r)))
      ∧ failed w' = failed w ++ [url]
      ∧ success w' = success w
      ∧ total_bytes w' = total_bytes w
      ∧ last (trace w') = Some (Print (FailedToDownload url ConnectionError))
  end.
Proof.
  intros Hn Hname Hreach Hget Hstatus Hlen Hbroken.
  rewrite (download_file_stream_breaks _ e _ _ _ _ _ _
             Hn Hname Hreach Hget Hstatus Hlen Hbroken).
  unfold fetched; fields. rewrite !app_nil_r.
  split_and!; try done.
  - by apply stat_written.
  - lia.
  - rewrite !app_assoc. apply last_snoc.
Qed.

(** *** A response without Content-Length *)

(** X4. When the response to the body GET carries no [Content-Length], the
    expected total is the local size before the GET.  So whenever the
    stream ends after at least one byte, the size check fails: the URL is
    recorded as failed although the whole body is in the local file.  With
    an empty body the target is a success. *)
Theorem missing_content_length_fails_a_nonempty_body (url : string)
    (w : world) (name : string) (old : list Byte.byte)
    (range : option string) (r : response) :
  local_filename url = Some name →
  name ≠ "" →
  reaches_get url name w old range →
  get net url range = Some r →
  (400 <=? status_code r) && (status_code r <? 600) = false →
  content_length r = None →
  broken r = false →
  let body := concat (chunks r) in
  let local_size := Z.of_nat (length old) in
  match download_file md5_hexdigest net url None w with
  | (res, w') =>
      res = Return tt
      ∧ stat (disk w') name = Some (File (old ++ body))
      ∧ (body ≠ [] →
         failed w' = failed w ++ [url]
         ∧ success w' = success w
         ∧ total_bytes w' = total_bytes w
         ∧ last (trace w')
           = Some (Print (FailedToDownload url
                            (ValueError
                               (SizeMismatch
                                  (local_size + Z.of_nat (length body))
                                  local_size)))))
      ∧ (body = [] →
         success w' = success w ++ [name]
         ∧ failed w' = failed w
         ∧ total_bytes w' = total_bytes w + local_size)
  end.
Proof.
  intros Hn Hname Hreach Hget Hstatus Hnone Hbroken body local_size.
  assert (header_value (content_length r) = Some 0) as Hlen
    by (by rewrite Hnone).
  rewrite (download_file_streams _ None _ _ _ _ _ _
             Hn Hname Hreach Hget Hstatus Hlen Hbroken).
  subst body local_size. cbv zeta. cbn [supplied].
  destruct (concat (chunks r)) as [| b body] eqn:Hbody.
  - destruct (decide (_ ≠ _)) as [Hbad | _];
      [exfalso; cbn [length] in Hbad; lia |].
    destruct (decide (_ ∨ _)) as [_ | Hbad];
      [| exfalso; apply Hbad; by left].
    unfold fetched; fields. rewrite !app_nil_r.
    split_and!; try done; try (by apply stat_written).
    all: intros _; split_and!; try done; lia.
  - destruct (decide (_ ≠ _)) as [_ | Hbad];
      [| exfalso; apply Hbad; cbn [length]; lia].
    unfold fetched; fields. rewrite !app_nil_r.
    split_and!; try done; try (by apply stat_written).
    all: intros _; split_and!; try done; try lia.
    all: rewrite !last_app; cbn [last]; repeat f_equal.
Qed.

(** *** Interrupted, then resumed *)

(** X5. A first call whose stream breaks after [part], followed by a second
    call for the same URL that the server answers with the remainder
    [rest] under the Content-Length of [rest]: the local file then holds
    [part ++ rest], the filename is in the success list, the URL stays in
    the failure list from the first call, and the byte counter has grown
    by the size of the whole file. *)
Theorem interrupted_download_is_completed_by_a_second_call (url : string)
    (w : world) (name : string) (r1 r2 : response) (n1 : Z)
    (h : option string) (total : Z) :
  local_filename url = Some name →
  name ≠ "" →
  stat (disk w) name = None →
  get net url None = Some r1 →
  (400 <=? status_code r1) && (status_code r1 <? 600) = false →
  header_value (content_length r1) = Some n1 →
  broken r1 = true →
  let part := concat (chunks r1) in
  let rest := concat (chunks r2) in
  head net url = Some h →
  header_value h = Some total →
  total ≠ Z.of_nat (length part) →
  get net url (Some (range_from (Z.of_nat (length part)))) = Some r2 →
  (400 <=? status_code r2) && (status_code r2 <? 600) = false →
  header_value (content_length r2) = Some (Z.of_nat (length rest)) →
  broken r2 = false →
  match (download_file md5_hexdigest net url None;;
         download_file md5_hexdigest net url None) w with
  | (res, w') =>
      res = Return tt
      ∧ stat (disk w') name = Some (File (part ++ rest))
      ∧ success w' = success w ++ [name]
      ∧ failed w' = failed w ++ [url]
      ∧ total_bytes w' = total_bytes w + Z.of_nat (length (part ++ rest))
  end.
Proof.
  intros Hn Hname Hs Hget1 Hst1 Hlen1 Hbr1 part rest Hh Hv Hne Hget2 Hst2
    Hlen2 Hbr2.
  assert (reaches_get url name w [] None) as Hreach1 by (by left).
  run.
  rewrite (download_file_stream_breaks _ None _ _ _ _ _ _
             Hn Hname Hreach1 Hget1 Hst1 Hlen1 Hbr1).
  cbn [app]. fold part.
  set (w1 := fetched w name part _ 0 [] [url]).
  assert (reaches_get url name w1 part
            (Some (range_from (Z.of_nat (length part))))) as Hreach2.
  { right. exists h, total. split_and!; try done.
    by apply stat_written. }
  rewrite (download_file_streams _ None _ _ _ _ _ _
             Hn Hname Hreach2 Hget2 Hst2 Hlen2 Hbr2).
  cbv zeta. cbn [supplied]. fold rest.
  destruct (decide (_ ≠ _)) as [Hbad | _]; [exfalso; lia |].
  destruct (decide (_ ∨ _)) as [_ | Hbad]; [| exfalso; apply Hbad; by left].
  subst w1. unfold fetched; fields. rewrite !app_nil_r.
  split_and!; try done; [by apply stat_written |].
  subst part rest. lia.
Qed.

(** *** An empty local filename *)

(** X6. When the first target of the batch has the empty derived filename
    (its path ends in a slash) and its GET is answered without an error
    status and with a readable Content-Length, [open] raises an [OSError]
    that the [except] clause does not catch: the batch ends there, with no
    entry recorded for any target and no request made for the others. *)
Theorem empty_filename_aborts_the_batch (url : string) (rest : list string)
    (w : world) (r : response) (n : Z) :
  file_urls w = url :: rest →
  local_filename url = Some "" →
  get net url None = Some r →
  (400 <=? status_code r) && (status_code r <? 600) = false →
  header_value (content_length r) = Some n →
  download_files md5_hexdigest net w
  = (Raise (OSError ""),
     World (file_urls w) (total_bytes w) (success w) (failed w) (disk w)
       (trace w ++ [Print (Downloading url); Get url None; Open "" WB])).
Proof.
  intros Hurls Hn Hget Hstatus Hlen.
  unfold download_files. run. rewrite Hurls. cbn [for_each]. run.
  unfold download_file. rewrite Hn. unfold probe, transfer.
  assert (∀ d, stat d "" = None) as Hstat by done.
  run. rewrite !Hstat. exec; try done.
  all: worlds.
Qed.

(** *** The files a download touches *)

Lemma download_file_frame (url : string) (e : option string) (w : world)
    (k : string) :
  local_filename url ≠ Some k →
  disk (download_file md5_hexdigest net url e w).2 !! k = disk w !! k.
Proof.
  intros Hk. unfold download_file.
  destruct (local_filename url) as [name |] eqn:Hn; [| reflexivity].
  assert (name ≠ k) as Hne by congruence.
  unfold probe, transfer. exec.
  all: rewrite ?lookup_alter_ne, ?lookup_insert_ne by done; reflexivity.
Qed.

Lemma for_each_frame (urls : list string) (k : string) :
  (∀ url, url ∈ urls → local_filename url ≠ Some k) →
  ∀ w,
    disk (for_each urls (λ url, download_file md5_hexdigest net url None)
            w).2 !! k
    = disk w !! k.
Proof.
  induction urls as [| url urls IH]; intros Hk w; [reflexivity |].
  cbn [for_each]. run.
  pose proof (download_file_frame url None w k) as Hframe.
  destruct (download_file md5_hexdigest net url None w) as [[[] | x] w1];
    cbn [snd] in *.
  - rewrite IH; [apply Hframe |]; set_solver.
  - apply Hframe. set_solver.
Qed.

(** X7. A batch changes no directory entry other than those named by the
    derived local filenames of its targets, however each download ends;
    and such a name contains no slash, so it lies in the working
    directory. *)
Theorem batch_touches_only_the_local_files (w : world) (k : string) :
  disk (download_files md5_hexdigest net w).2 !! k ≠ disk w !! k →
  ∃ url, url ∈ file_urls w
         ∧ local_filename url = Some k
         ∧ Str.mem "/" k = false.
Proof.
  intros Hchanged.
  destruct (decide (Exists (λ url, local_filename url = Some k)
                      (file_urls w))) as [Hex | Hno].
  - apply Exists_exists in Hex as (url & Hin & Hn).
    exists url. split_and!; [done | done |].
    by eapply local_filename_without_slash.
  - exfalso. apply Hchanged. unfold download_files. run.
    apply for_each_frame. intros url Hin Hn. apply Hno.
    apply Exists_exists. eauto.
Qed.

(** ** The cookie, continued *)

(** X8. The cookie check returns normally exactly when the validation
    request or, failing that, the authorisation request is answered 200.
    Otherwise it ends with the exception of the renewal, which is raised
    outside the [try]: [SystemExit(1)] when the authorisation is answered
    with another status, and the [RequestException] itself when the
    authorisation request fails, although the same failure of the
    validation request is caught.  The cookie jar is saved exactly in the
    runs where validation did not succeed and the authorisation is
    answered 200, and the fields of the downloader and the directory are
    left as they were. *)
Theorem cookie_check_outcome (w : world) :
  let renewal := authorize net (typed_username net) (typed_password net) in
  match check_or_get_cookie net w with
  | (res, w') =>
      (res = Return tt ↔ profile net = Some 200 ∨ renewal = Some 200)
      ∧ (profile net ≠ Some 200 →
         ∀ status, renewal = Some status → status ≠ 200 →
                   res = Raise (SystemExit 1))
      ∧ (profile net ≠ Some 200 → renewal = None →
         res = Raise ConnectionError)
      ∧ (∃ evs, trace w' = trace w ++ evs
                ∧ (SaveCookies ∈ evs
                   ↔ profile net ≠ Some 200 ∧ renewal = Some 200))
      ∧ file_urls w' = file_urls w
      ∧ total_bytes w' = total_bytes w
      ∧ success w' = success w
      ∧ failed w' = failed w
      ∧ disk w' = disk w
  end.
Proof.
  intros renewal. subst renewal.
  unfold check_or_get_cookie, get_new_cookie. run.
  destruct (profile net) as [p |]; run;
    [destruct (decide (p = 200)) as [-> | Hp]; run |].
  all: try (destruct (authorize net _ _) as [s |]; run;
            [destruct (decide (s = 200)) as [-> | Hs]; run |]).
  all: split_and!; try done.
  all: try (eexists; rewrite <- ?app_assoc; split; [reflexivity |];
            set_unfold).
  all: intuition congruence.
Qed.

(** ** The write loop *)

(** X9. What reaches the local file and the byte count the loop returns
    depend on the concatenation of the chunks only, not on where the
    stream is cut: the file that was opened ends with all the bytes in
    order after its previous content, and the count has grown by their
    number. *)
Theorem chunk_boundaries_do_not_matter (name : string) (cs cs' : list chunk)
    (downloaded total : Z) (w : world) :
  concat cs = concat cs' →
  let run := write_chunks name cs downloaded total w in
  let run' := write_chunks name cs' downloaded total w in
  run.1 = Return (downloaded + Z.of_nat (length (concat cs)))
  ∧ run'.1 = run.1
  ∧ disk run'.2 = disk run.2
  ∧ (∀ old, disk w !! name = Some (File old) →
            disk run.2 !! name = Some (File (old ++ concat cs)))
  ∧ (∀ k, k ≠ name → disk run.2 !! k = disk w !! k).
Proof.
  intros Heq run run'. subst run run'. rewrite !write_chunks_run.
  fields. rewrite Heq. split_and!; try done.
  - intros old Hold. by rewrite lookup_alter_eq, Hold.
  - intros k Hk. by rewrite lookup_alter_ne.
Qed.

Lemma progress_events_bounds (cs : list chunk) (total : Z) :
  ∀ downloaded,
    Forall (λ ev, ∃ d q, ev = Progress d total q
                         ∧ downloaded < d
                           ≤ downloaded + Z.of_nat (length (concat cs)))
      (progress_events cs downloaded total).
Proof.
  induction cs as [| [| b c] cs IH]; intros downloaded.
  - constructor.
  - cbn [progress_events concat app]. apply IH.
  - cbn [progress_events concat]. constructor.
    + eexists _, _. split; [reflexivity |].
      rewrite length_app. cbn [length]. lia.
    + eapply Forall_impl; [apply IH |].
      intros ev (d & q & -> & Hd). eexists _, _. split; [reflexivity |].
      rewrite length_app. cbn [length] in *. lia.
Qed.

Lemma progress_events_length (cs : list chunk) (total : Z) :
  ∀ downloaded,
    length (progress_events cs downloaded total)
    = length (List.filter (λ c : chunk, match c with
                                        | [] => false
                                        | _ => true
                                        end) cs).
Proof.
  induction cs as [| [| b c] cs IH]; intros downloaded;
    cbn [progress_events List.filter length]; [done | apply IH |].
  by rewrite IH.
Qed.

Lemma progress_events_increase (cs : list chunk) (total : Z) :
  ∀ downloaded (i j : nat) d1 q1 d2 q2,
    (i < j)%nat →
    progress_events cs downloaded total !! i = Some (Progress d1 total q1) →
    progress_events cs downloaded total !! j = Some (Progress d2 total q2) →
    d1 < d2.
Proof.
  induction cs as [| [| b c] cs IH]; intros downloaded i j d1 q1 d2 q2 Hij;
    cbn [progress_events]; [done | by apply IH |].
  destruct j as [| j]; [lia |]. destruct i as [| i]; cbn [lookup list_lookup].
  - intros [= <- _] Hj.
    pose proof (progress_events_bounds cs total
                  (downloaded + Z.of_nat (length (b :: c)))) as Hall.
    rewrite Forall_lookup in Hall.
    destruct (Hall _ _ Hj) as (d & q & [= -> _] & Hd).
    cbn [length] in *. lia.
  - apply IH. lia.
Qed.

Lemma progress_events_last (cs : list chunk) (total : Z) :
  ∀ downloaded,
    concat cs ≠ [] →
    ∃ q, last (progress_events cs downloaded total)
         = Some (Progress (downloaded + Z.of_nat (length (concat cs)))
                   total q).
Proof.
  induction cs as [| [| b c] cs IH]; intros downloaded Hne;
    cbn [progress_events concat app] in *; [done | by apply IH |].
  destruct (concat cs) as [| b' rest] eqn:Hrest.
  - assert (progress_events cs (downloaded + Z.of_nat (length (b :: c)))
              total = []) as ->.
    { pose proof (progress_events_bounds cs total
                    (downloaded + Z.of_nat (length (b :: c)))) as Hall.
      rewrite Hrest in Hall.
      destruct (progress_events cs _ total) as [| ev evs]; [done |].
      apply Forall_cons in Hall as [(d & q & _ & Hd) _].
      cbn [length] in Hd. lia. }
    rewrite app_nil_r. eexists. reflexivity.
  - destruct (IH (downloaded + Z.of_nat (length (b :: c)))) as [q Hq];
      [done |].
    exists q. rewrite last_cons, Hq. f_equal. f_equal.
    cbn [length]. rewrite length_app. cbn [length]. lia.
Qed.

(** X10. The loop prints one progress line for each non-empty chunk and none
    for an empty one.  Each line shows the expected total it was given;
    the byte counts shown increase strictly from line to line, and after a
    non-empty body the last one is the count the loop returns. *)
Theorem progress_lines_follow_the_chunks (name : string) (cs : list chunk)
    (downloaded total : Z) (w : world) :
  ∃ evs,
    trace (write_chunks name cs downloaded total w).2 = trace w ++ evs
    ∧ length evs
      = length (List.filter (λ c : chunk, match c with
                                          | [] => false
                                          | _ => true
                                          end) cs)
    ∧ Forall (λ ev, ∃ d q, ev = Progress d total q
                           ∧ downloaded < d
                             ≤ downloaded + Z.of_nat (length (concat cs)))
        evs
    ∧ (∀ (i j : nat) d1 q1 d2 q2,
         (i < j)%nat →
         evs !! i = Some (Progress d1 total q1) →
         evs !! j = Some (Progress d2 total q2) →
         d1 < d2)
    ∧ (concat cs ≠ [] →
       ∃ q, last evs = Some (Progress (downloaded
                                       + Z.of_nat (length (concat cs)))
                               total q)
            ∧ (write_chunks name cs downloaded total w).1
              = Return (downloaded + Z.of_nat (length (concat cs)))).
Proof.
  exists (progress_events cs downloaded total).
  rewrite write_chunks_run. fields. split_and!.
  - reflexivity.
  - apply progress_events_length.
  - apply progress_events_bounds.
  - apply progress_events_increase.
  - intros Hne. destruct (progress_events_last cs total downloaded Hne)
      as [q Hq]. eauto.
Qed.

(** ** Decimal numbers *)

(** The value of a string of digits read from the left, starting from
    [acc]. *)
Fixpoint decimal (acc : Z) (s : string) : Z :=
  match s with
  | EmptyString => acc
  | String a s' => decimal (10 * acc + PyInt.digit_value a) s'
  end.

Lemma digits_decimal (s : string) :
  Str.forallb Str.is_digit s = true →
  ∀ acc seen, s ≠ "" ∨ seen = true →
              PyInt.digits acc seen s = Some (decimal acc s).
Proof.
  induction s as [| a s IH]; intros Hs acc seen Hne; cbn in *.
  - destruct Hne as [| ->]; done.
  - apply andb_prop in Hs as [Ha Hs]. rewrite Ha.
    apply IH; [done | by right].
Qed.

Lemma pretty_N_char_digit (x : N) :
  (x < 10)%N →
  Str.is_digit (pretty_N_char x) = true
  ∧ PyInt.digit_value (pretty_N_char x) = Z.of_N x.
Proof.
  intros Hx.
  assert (x = 0 ∨ x = 1 ∨ x = 2 ∨ x = 3 ∨ x = 4 ∨ x = 5 ∨ x = 6 ∨ x = 7
          ∨ x = 8 ∨ x = 9)%N as Hcases by lia.
  repeat (destruct Hcases as [-> | Hcases]; [by vm_compute |]).
  subst. by vm_compute.
Qed.

Lemma pretty_N_go_decimal (x : N) :
  ∀ s, Str.forallb Str.is_digit s = true →
       Str.forallb Str.is_digit (pretty_N_go x s) = true
       ∧ decimal 0 (pretty_N_go x s) = decimal (Z.of_N x) s
       ∧ ((0 < x)%N → pretty_N_go x s ≠ "").
Proof.
  induction (N.lt_wf_0 x) as [x _ IH]; intros s Hs.
  assert (x = 0 ∨ 0 < x)%N as [-> | Hx] by lia.
  - rewrite pretty_N_go_0. split_and!; [done | done | lia].
  - rewrite pretty_N_go_step by done.
    destruct (pretty_N_char_digit (x `mod` 10)) as [Hd Hv];
      [by apply N.mod_lt |].
    destruct (IH (x `div` 10)%N) with
      (s := String (pretty_N_char (x `mod` 10)) s) as (Hall & Hdec & Hne).
    { by apply N.div_lt. }
    { cbn. by rewrite Hd, Hs. }
    split_and!; [done | |].
    + rewrite Hdec. cbn [decimal]. rewrite Hv. f_equal.
      rewrite (N.div_mod x 10) at 3 by done. lia.
    + intros _.
      destruct (N.eq_0_gt_0_cases (x `div` 10)) as [-> | Hpos].
      * by rewrite pretty_N_go_0.
      * by apply Hne.
Qed.

Lemma digit_is_not_space (a : ascii) :
  Str.is_digit a = true →
  PyInt.is_space a = false ∧ a ≠ "-"%char ∧ a ≠ "+"%char.
Proof.
  destruct a as [[] [] [] [] [] [] [] []]; vm_compute; intros;
    first [discriminate | split_and!; [reflexivity | discriminate ..]].
Qed.

Lemma lstrip_digits (s : string) :
  Str.forallb Str.is_digit s = true → Str.lstrip PyInt.is_space s = s.
Proof.
  destruct s as [| a s]; [done |]. cbn. intros Hs.
  apply andb_prop in Hs as [Ha _].
  by destruct (digit_is_not_space a Ha) as [-> _].
Qed.

Lemma rstrip_digits (s : string) :
  Str.forallb Str.is_digit s = true → PyInt.rstrip_spaces s = s.
Proof.
  induction s as [| a s IH]; [done |]. cbn. intros Hs.
  apply andb_prop in Hs as [Ha Hs]. rewrite (IH Hs).
  destruct (digit_is_not_space a Ha) as [-> _]. by destruct s.
Qed.

Lemma digit_count_digits (s : string) :
  Str.forallb Str.is_digit s = true →
  PyInt.digit_count s = N.of_nat (String.length s).
Proof.
  induction s as [| a s IH]; [done |].
  cbn [Str.forallb PyInt.digit_count String.length]. intros Hs.
  apply andb_prop in Hs as [Ha Hs]. rewrite Ha, (IH Hs). lia.
Qed.

Lemma of_string_digits (s : string) :
  Str.forallb Str.is_digit s = true → s ≠ "" →
  let fits := (N.of_nat (String.length s) <=? PyInt.max_str_digits)%N in
  PyInt.of_string s = (if fits then Some (decimal 0 s) else None)
  ∧ PyInt.of_string (String "-" s)
    = (if fits then Some (- decimal 0 s) else None).
Proof.
  intros Hs Hne fits. subst fits.
  unfold PyInt.of_string, PyInt.strip. split.
  - rewrite (lstrip_digits s Hs), (rstrip_digits s Hs).
    assert (PyInt.number s
            = if (N.of_nat (String.length s) <=? PyInt.max_str_digits)%N
              then Some (decimal 0 s) else None) as <-.
    { unfold PyInt.number. rewrite (digit_count_digits s Hs).
      by rewrite (digits_decimal s Hs 0 false) by (by left). }
    destruct s as [| a t]; [done |].
    assert (Str.is_digit a = true) as Ha
      by (cbn in Hs; by apply andb_prop in Hs as [? _]).
    destruct (digit_is_not_space a Ha) as (_ & Hminus & Hplus).
    destruct a as [[] [] [] [] [] [] [] []]; try reflexivity; done.
  - change (Str.lstrip PyInt.is_space (String "-" s)) with (String "-" s).
    cbn [PyInt.rstrip_spaces]. rewrite (rstrip_digits s Hs).
    destruct s as [| a t]; [done |].
    change (PyInt.is_space "-") with false. cbn iota.
    unfold PyInt.number. rewrite (digit_count_digits _ Hs).
    rewrite (digits_decimal (String a t) Hs 0 false) by (by left).
    by destruct (_ <=? _)%N.
Qed.

Lemma pretty_N_go_grows (x : N) :
  ∀ s, (String.length s ≤ String.length (pretty_N_go x s))%nat.
Proof.
  induction (N.lt_wf_0 x) as [x _ IH]; intros s.
  destruct (N.eq_0_gt_0_cases x) as [-> | Hx].
  - by rewrite pretty_N_go_0.
  - rewrite pretty_N_go_step by done.
    etrans; [| apply IH; by apply N.div_lt]. cbn [String.length]. lia.
Qed.

(** The number of digits [pretty] writes for [x], against the powers of
    ten. *)
Lemma pretty_N_go_length (k : Z) :
  0 ≤ k →
  ∀ x s,
    (Z.of_N x < 10 ^ k →
     Z.of_nat (String.length (pretty_N_go x s))
     ≤ k + Z.of_nat (String.length s))
    ∧ (10 ^ k ≤ Z.of_N x →
       k + Z.of_nat (String.length s)
       < Z.of_nat (String.length (pretty_N_go x s))).
Proof.
  intros Hk. pattern k. apply natlike_ind; [| | done]; clear k Hk.
  - intros x s. change (10 ^ 0) with 1. split; intros Hx.
    + assert (x = 0%N) as -> by lia. rewrite pretty_N_go_0. lia.
    + rewrite pretty_N_go_step by lia.
      pose proof (pretty_N_go_grows (x `div` 10)
                    (String (pretty_N_char (x `mod` 10)) s)) as Hg.
      cbn [String.length] in Hg. lia.
  - intros k Hk IH x s. rewrite Z.pow_succ_r by done.
    pose proof (Z.pow_pos_nonneg 10 k ltac:(lia) Hk) as Hpow.
    destruct (N.eq_0_gt_0_cases x) as [-> | Hpos].
    { rewrite pretty_N_go_0. split; intros Hx; cbn in Hx; lia. }
    rewrite pretty_N_go_step by done.
    destruct (IH (x `div` 10)%N (String (pretty_N_char (x `mod` 10)) s))
      as [Hup Hlow].
    cbn [String.length] in Hup, Hlow. rewrite N2Z.inj_div in Hup, Hlow.
    split; intros Hx.
    + assert (Z.of_N x `div` 10 < 10 ^ k)
        by (apply Z.div_lt_upper_bound; lia).
      specialize (Hup ltac:(done)). lia.
    + assert (10 ^ k ≤ Z.of_N x `div` 10)
        by (apply Z.div_le_lower_bound; lia).
      specialize (Hlow ltac:(done)). lia.
Qed.

(** X11. [int] reads back an integer from its decimal rendering as long
    as the rendering has at most 4300 digits, and refuses a longer one:
    a [Content-Length] header that is the rendering of [n] is read as [n]
    when [n] is below 10^4300 in absolute value, and raises the
    [ValueError] from there on. *)
Theorem int_reads_back_a_rendered_integer (n : Z) :
  (Z.abs n < 10 ^ 4300 →
   PyInt.of_string (pretty n) = Some n
   ∧ header_value (Some (pretty n)) = Some n)
  ∧ (10 ^ 4300 ≤ Z.abs n →
     PyInt.of_string (pretty n) = None
     ∧ header_value (Some (pretty n)) = None).
Proof.
  assert (∀ p : positive,
            (Z.pos p < 10 ^ 4300 →
             PyInt.of_string (pretty p) = Some (Z.pos p)
             ∧ PyInt.of_string (String "-" (pretty p)) = Some (Z.neg p))
            ∧ (10 ^ 4300 ≤ Z.pos p →
               PyInt.of_string (pretty p) = None
               ∧ PyInt.of_string (String "-" (pretty p)) = None)) as Hpos.
  { intros p. unfold pretty, pretty_positive, pretty, pretty_N.
    destruct (decide (N.pos p = 0%N)) as [| _]; [done |].
    destruct (pretty_N_go_decimal (N.pos p) "" eq_refl)
      as (Hall & Hdec & Hne).
    destruct (of_string_digits _ Hall (Hne ltac:(lia))) as [Hplus Hminus].
    destruct (pretty_N_go_length 4300 ltac:(lia) (N.pos p) "")
      as [Hup Hlow].
    cbv zeta in Hplus, Hminus. rewrite Hplus, Hminus, Hdec.
    change (Z.of_N (N.pos p)) with (Z.pos p) in *.
    cbn [decimal String.length] in *. unfold PyInt.max_str_digits.
    split; intros Hp.
    - specialize (Hup Hp). clear Hp Hlow.
      destruct (N.leb_spec (N.of_nat (String.length (pretty_N_go (N.pos p) "")))
                  4300); [done | lia].
    - specialize (Hlow Hp). clear Hp Hup.
      destruct (N.leb_spec (N.of_nat (String.length (pretty_N_go (N.pos p) "")))
                  4300); [lia | done]. }
  pose proof (Z.pow_pos_nonneg 10 4300 ltac:(lia) ltac:(lia)) as Hpow.
  unfold header_value.
  destruct n as [| p | p].
  - split; intros Hn; [by split | cbn in Hn; lia].
  - change (pretty (Z.pos p)) with (pretty p). change (Z.abs (Z.pos p))
      with (Z.pos p). destruct (Hpos p) as [Hup Hlow].
    split; intros Hn; [destruct (Hup Hn) | destruct (Hlow Hn)]; by split.
  - change (pretty (Z.neg p)) with (String "-" (pretty p)).
    change (Z.abs (Z.neg p)) with (Z.pos p). destruct (Hpos p) as [Hup Hlow].
    split; intros Hn; [destruct (Hup Hn) | destruct (Hlow Hn)]; by split.
Qed.

(** ** The local filename of a URL *)

Lemma append_nil_l (s : string) : "" +:+ s = s.
Proof. reflexivity. Qed.

Lemma append_cons (x : ascii) (s t : string) :
  String x s +:+ t = String x (s +:+ t).
Proof. reflexivity. Qed.

Lemma append_nil_r (s : string) : s +:+ "" = s.
Proof. induction s as [| x s IH]; [done |]. by rewrite append_cons, IH. Qed.

Ltac strs := rewrite ?append_nil_l, ?append_cons; simpl.

Lemma lstrip_app (p : ascii → bool) (a b : string) (c : ascii) :
  p c = false →
  Str.lstrip p (a +:+ String c b) = Str.lstrip p a +:+ String c b.
Proof.
  intros Hc. induction a as [| x a IH]; strs.
  - by rewrite Hc.
  - by destruct (p x).
Qed.

Lemma remove_app (p : ascii → bool) (a b : string) :
  Str.remove p (a +:+ b) = Str.remove p a +:+ Str.remove p b.
Proof.
  induction a as [| x a IH]; strs; [done |].
  destruct (p x); strs; by rewrite IH.
Qed.

Lemma break_app (p : ascii → bool) (a t : string) :
  Str.break p (a +:+ t)
  = match (Str.break p a).2 with
    | EmptyString => ((Str.break p a).1 +:+ (Str.break p t).1,
                      (Str.break p t).2)
    | r => ((Str.break p a).1, r +:+ t)
    end.
Proof.
  induction a as [| x a IH]; strs.
  - by destruct (Str.break p t).
  - destruct (p x); [done |]. rewrite IH.
    destruct (Str.break p a) as [l r]. simpl. by destruct r.
Qed.

Lemma break_parts (p : ascii → bool) (s : string) :
  (Str.break p s).1 +:+ (Str.break p s).2 = s.
Proof.
  induction s as [| x s IH]; simpl; [done |].
  destruct (p x); [done |].
  destruct (Str.break p s) as [l r]. simpl in *. by rewrite append_cons, IH.
Qed.

Lemma mem_app (c : ascii) (a b : string) :
  Str.mem c (a +:+ b) = Str.mem c a || Str.mem c b.
Proof.
  induction a as [| x a IH]; strs; [done |]. by rewrite IH, orb_assoc.
Qed.

Lemma forallb_app (p : ascii → bool) (a b : string) :
  Str.forallb p (a +:+ b) = Str.forallb p a && Str.forallb p b.
Proof.
  induction a as [| x a IH]; strs; [done |]. by rewrite IH, andb_assoc.
Qed.

Lemma mem_break (p : ascii → bool) (c : ascii) (s : string) :
  Str.mem c s = false →
  Str.mem c (Str.break p s).1 = false ∧ Str.mem c (Str.break p s).2 = false.
Proof.
  intros Hs. rewrite <- (break_parts p s), mem_app in Hs.
  by apply orb_false_elim in Hs.
Qed.

Lemma break_miss (c : ascii) (s : string) :
  Str.mem c s = false → Str.break (Ascii.eqb c) s = (s, "").
Proof.
  induction s as [| x s IH]; simpl; [done |]. intros Hs.
  apply orb_false_elim in Hs as [Hx Hs].
  rewrite Ascii.eqb_sym, Hx, (IH Hs). done.
Qed.

Lemma mem_lstrip (p : ascii → bool) (c : ascii) (s : string) :
  Str.mem c s = false → Str.mem c (Str.lstrip p s) = false.
Proof.
  induction s as [| x s IH]; simpl; [done |]. intros Hs.
  apply orb_false_elim in Hs as [Hx Hs].
  destruct (p x); [by apply IH |]. simpl. by rewrite Hx, Hs.
Qed.

Lemma mem_remove (p : ascii → bool) (c : ascii) (s : string) :
  Str.mem c s = false → Str.mem c (Str.remove p s) = false.
Proof.
  induction s as [| x s IH]; simpl; [done |]. intros Hs.
  apply orb_false_elim in Hs as [Hx Hs].
  destruct (p x); [by apply IH |]. simpl. by rewrite Hx, IH.
Qed.

Lemma break_cons (p : ascii → bool) (x : ascii) (s : string) :
  Str.break p (String x s)
  = if p x then ("", String x s)
    else (String x (Str.break p s).1, (Str.break p s).2).
Proof. simpl. destruct (p x); [done |]. by destruct (Str.break p s). Qed.

Lemma split_scheme_app (a b : string) (c : ascii) :
  UrlParse.scheme_char c = false → c ≠ ":"%char →
  UrlParse.split_scheme (a +:+ String c b)
  = ((UrlParse.split_scheme a).1,
     (UrlParse.split_scheme a).2 +:+ String c b).
Proof.
  intros Hc Hcolon. unfold UrlParse.split_scheme, Str.split_once.
  rewrite break_app.
  pose proof (break_parts (Ascii.eqb ":") a) as Hp.
  destruct (Str.break (Ascii.eqb ":") a) as [l r]. cbn [fst snd] in *.
  destruct r as [| x r]; cbn [fst snd].
  - rewrite append_nil_r in Hp. subst l. rewrite break_cons.
    destruct (Ascii.eqb_spec ":" c) as [<- | _]; [done |]. cbn [fst snd].
    destruct (Str.break (Ascii.eqb ":") b) as [l2 [| z r2]]; cbn [fst snd];
      [done |].
    destruct (a +:+ String c l2) as [| y s] eqn:Hs; [done |].
    assert (Str.forallb UrlParse.scheme_char (String y s) = false) as ->.
    { rewrite <- Hs, forallb_app. cbn [Str.forallb].
      by rewrite Hc, andb_false_r. }
    by rewrite andb_false_r.
  - rewrite append_cons. destruct l as [| y l]; [done |].
    by destruct (Str.is_alpha y && Str.forallb UrlParse.scheme_char _).
Qed.

Lemma mem_split_scheme (c : ascii) (s : string) :
  Str.mem c s = false → Str.mem c (UrlParse.split_scheme s).2 = false.
Proof.
  intros Hs. unfold UrlParse.split_scheme, Str.split_once.
  destruct (mem_break (Ascii.eqb ":") c s Hs) as [_ Hr].
  destruct (Str.break (Ascii.eqb ":") s) as [l [| x r]]; [done |].
  simpl in Hr. apply orb_false_elim in Hr as [_ Hr].
  destruct l as [| y l]; [done |].
  by destruct (Str.is_alpha y && Str.forallb UrlParse.scheme_char _).
Qed.

(** [split_netloc] by comparison of the first two characters. *)
Lemma split_netloc_eqb (url : string) :
  UrlParse.split_netloc url
  = match url with
    | String x (String y rest) =>
        if Ascii.eqb x "/" && Ascii.eqb y "/"
        then Str.break UrlParse.netloc_delim rest
        else ("", url)
    | _ => ("", url)
    end.
Proof.
  destruct url as [| x [| y rest]]; [done | |].
  - by destruct x as [[] [] [] [] [] [] [] []].
  - destruct x as [[] [] [] [] [] [] [] []]; try reflexivity.
    by destruct y as [[] [] [] [] [] [] [] []].
Qed.

Lemma split_netloc_app (a b : string) (c : ascii) :
  UrlParse.netloc_delim c = true → c ≠ "/"%char →
  UrlParse.split_netloc (a +:+ String c b)
  = ((UrlParse.split_netloc a).1,
     (UrlParse.split_netloc a).2 +:+ String c b).
Proof.
  intros Hc Hslash. rewrite !split_netloc_eqb.
  assert (Ascii.eqb c "/" = false) as Hne
    by (by destruct (Ascii.eqb_spec c "/")).
  destruct a as [| x [| y rest]];
    rewrite ?append_nil_l, ?append_cons; cbn [fst snd].
  - destruct b; [done |]. by rewrite Hne.
  - by rewrite append_nil_l, Hne, andb_false_r.
  - destruct (Ascii.eqb x "/" && Ascii.eqb y "/"); [| done].
    rewrite break_app, break_cons, Hc.
    destruct (Str.break UrlParse.netloc_delim rest) as [l r]. cbn [fst snd].
    destruct r; [by rewrite append_nil_r |]. done.
Qed.

Lemma mem_split_netloc (c : ascii) (s : string) :
  Str.mem c s = false → Str.mem c (UrlParse.split_netloc s).2 = false.
Proof.
  intros Hs. rewrite split_netloc_eqb.
  destruct s as [| x [| y rest]]; [done | done |].
  destruct (Ascii.eqb x "/" && Ascii.eqb y "/"); [| done].
  cbn [Str.mem] in Hs. apply orb_false_elim in Hs as [_ Hs].
  apply orb_false_elim in Hs as [_ Hs].
  by apply mem_break.
Qed.

Lemma before_query_or_fragment (u q : string) (c : ascii) :
  c = "?"%char ∨ c = "#"%char →
  Str.mem "?" u = false → Str.mem "#" u = false →
  Str.before "?" (Str.before "#" (u +:+ String c q))
  = Str.before "?" (Str.before "#" u).
Proof.
  intros Hc Hq Hf. unfold Str.before.
  rewrite (break_miss "#" u Hf). simpl. rewrite (break_miss "?" u Hq). simpl.
  rewrite break_app, (break_miss "#" u Hf). simpl.
  destruct Hc as [-> | ->]; simpl.
  - destruct (Str.break (Ascii.eqb "#") q) as [l r]. simpl.
    rewrite break_app, (break_miss "?" u Hq). simpl.
    by rewrite append_nil_r.
  - by rewrite append_nil_r, (break_miss "?" u Hq).
Qed.

Lemma path_ignores_query_and_fragment (url q : string) (c : ascii) :
  c = "?"%char ∨ c = "#"%char →
  Str.mem "?" url = false → Str.mem "#" url = false →
  UrlParse.path (url +:+ String c q) = UrlParse.path url.
Proof.
  intros Hc Hq Hf. unfold UrlParse.path.
  rewrite lstrip_app by (by destruct Hc as [-> | ->]).
  rewrite remove_app.
  set (u := Str.remove UrlParse.unsafe_byte
              (Str.lstrip UrlParse.c0_control_or_space url)).
  assert (Str.mem "?" u = false ∧ Str.mem "#" u = false) as [Hq1 Hf1]
    by (split; by apply mem_remove, mem_lstrip).
  assert (Str.remove UrlParse.unsafe_byte (String c q)
          = String c (Str.remove UrlParse.unsafe_byte q)) as ->
    by (by destruct Hc as [-> | ->]).
  rewrite split_scheme_app by (destruct Hc as [-> | ->]; done).
  pose proof (mem_split_scheme "?" u Hq1) as Hq2.
  pose proof (mem_split_scheme "#" u Hf1) as Hf2.
  destruct (UrlParse.split_scheme u) as [scheme u2]. simpl in *.
  rewrite split_netloc_app by (destruct Hc as [-> | ->]; done).
  pose proof (mem_split_netloc "?" u2 Hq2) as Hq3.
  pose proof (mem_split_netloc "#" u2 Hf2) as Hf3.
  destruct (UrlParse.split_netloc u2) as [netloc u3]. simpl in *.
  by rewrite before_query_or_fragment.
Qed.

(** X12. The query and the fragment of a URL do not enter its local filename:
    two URLs that differ only after the first [?] or [#] are downloaded to
    the same local file. *)
Theorem query_and_fragment_do_not_name_the_file (url q : string) (c : ascii) :
  c = "?"%char ∨ c = "#"%char →
  Str.mem "?" url = false →
  Str.mem "#" url = false →
  local_filename (url +:+ String c q) = local_filename url.
Proof.
  intros Hc Hq Hf. unfold local_filename.
  by rewrite path_ignores_query_and_fragment.
Qed.

Lemma forallb_impl (p q : ascii → bool) (s : string) :
  (∀ a, p a = true → q a = true) →
  Str.forallb p s = true → Str.forallb q s = true.
Proof.
  intros Hpq. induction s as [| x s IH]; [done |]. cbn [Str.forallb].
  intros Hs. apply andb_prop in Hs as [Hx Hs].
  by rewrite (Hpq x Hx), (IH Hs).
Qed.

Lemma forallb_mem (q : ascii → bool) (c : ascii) (s : string) :
  q c = false → Str.forallb q s = true → Str.mem c s = false.
Proof.
  intros Hc. induction s as [| x s IH]; [done |]. cbn [Str.forallb Str.mem].
  intros Hs. apply andb_prop in Hs as [Hx Hs]. rewrite (IH Hs), orb_false_r.
  destruct (Ascii.eqb_spec x c) as [-> | _]; [congruence | done].
Qed.

Lemma remove_none (p : ascii → bool) (s : string) :
  Str.forallb (λ a, negb (p a)) s = true → Str.remove p s = s.
Proof.
  induction s as [| x s IH]; [done |]. cbn [Str.forallb Str.remove].
  intros Hs. apply andb_prop in Hs as [Hx Hs].
  apply negb_true_iff in Hx. by rewrite Hx, (IH Hs).
Qed.

Lemma break_none (p : ascii → bool) (s : string) :
  Str.forallb (λ a, negb (p a)) s = true → Str.break p s = (s, "").
Proof.
  induction s as [| x s IH]; [done |]. cbn [Str.forallb]. intros Hs.
  apply andb_prop in Hs as [Hx Hs]. apply negb_true_iff in Hx.
  by rewrite break_cons, Hx, (IH Hs).
Qed.

Lemma after_last_none (c : ascii) (s : string) :
  Str.mem c s = false → Str.after_last c s = s.
Proof.
  destruct s as [| x s]; [done |]. cbn [Str.mem Str.after_last].
  intros Hs. apply orb_false_elim in Hs as [Hx Hs]. by rewrite Hs, Hx.
Qed.

Lemma after_last_cons (c : ascii) (s : string) :
  Str.after_last c (String c s) = Str.after_last c s.
Proof.
  cbn [Str.after_last]. destruct (Str.mem c s) eqn:Hs; [done |].
  by rewrite Ascii.eqb_refl, after_last_none.
Qed.

Lemma after_last_app (c : ascii) (a t : string) :
  Str.mem c t = false → Str.after_last c (a +:+ String c t) = t.
Proof.
  intros Ht. induction a as [| x a IH].
  - by rewrite append_nil_l, after_last_cons, after_last_none.
  - rewrite append_cons. cbn [Str.after_last].
    rewrite mem_app. cbn [Str.mem].
    by rewrite Ascii.eqb_refl, orb_true_r.
Qed.

Lemma mem_upto_last (c : ascii) (s : string) :
  Str.mem c (Str.upto_last c s) = Str.mem c s.
Proof.
  induction s as [| x s IH]; [done |]. cbn [Str.upto_last Str.mem].
  destruct (Str.mem c s) eqn:Hs.
  - cbn [Str.mem]. by rewrite IH, !orb_true_r.
  - rewrite orb_false_r.
    destruct (Ascii.eqb x c) eqn:Hx; cbn [Str.mem]; [| done].
    by rewrite Hx.
Qed.

Lemma after_last_upto_last (c : ascii) (s t : string) :
  Str.mem c t = false →
  Str.after_last c (Str.upto_last c s +:+ t) = t.
Proof.
  intros Ht. induction s as [| x s IH].
  - by rewrite append_nil_l, after_last_none.
  - cbn [Str.upto_last]. destruct (Str.mem c s) eqn:Hs.
    + rewrite append_cons. cbn [Str.after_last].
      by rewrite mem_app, mem_upto_last, Hs.
    + destruct (Ascii.eqb_spec x c) as [-> | _].
      * by rewrite append_cons, append_nil_l, after_last_cons,
          after_last_none.
      * by rewrite append_nil_l, after_last_none.
Qed.

Lemma mem_after_last_other (c d : ascii) (s : string) :
  Str.mem d s = false → Str.mem d (Str.after_last c s) = false.
Proof.
  induction s as [| x s IH]; [done |]. cbn [Str.mem Str.after_last].
  intros Hs. apply orb_false_elim in Hs as [Hx Hs].
  destruct (Str.mem c s); [by apply IH |].
  destruct (Ascii.eqb x c); [done |]. cbn [Str.mem]. by rewrite Hx, Hs.
Qed.

(** The characters of a host name and of a path that the derivation leaves
    in place: no tab and no line break, for a host no [/], [?], [#] and no
    square bracket, for a path no [?] and no [#]. *)
Definition host_char (a : ascii) : bool :=
  negb (UrlParse.netloc_delim a || UrlParse.unsafe_byte a
        || Ascii.eqb a "[" || Ascii.eqb a "]").

Definition path_char (a : ascii) : bool :=
  negb (UrlParse.unsafe_byte a || Ascii.eqb a "?" || Ascii.eqb a "#").

Lemma basename_strip_params (p : string) :
  basename (UrlParse.strip_params p) = Str.before ";" (Str.after_last "/" p).
Proof.
  unfold basename, UrlParse.strip_params. apply after_last_upto_last.
  unfold Str.before. apply mem_break, mem_after_last.
Qed.

Lemma http_path (scheme host p : string) :
  scheme = "http" ∨ scheme = "https" →
  Str.forallb host_char host = true →
  Str.forallb path_char p = true →
  UrlParse.path (scheme +:+ "://" +:+ host +:+ "/" +:+ p)
  = Some (UrlParse.strip_params (String "/" p)).
Proof.
  intros Hscheme Hhost Hp.
  assert (Str.forallb (λ a, negb (UrlParse.unsafe_byte a)) host = true)
    as Hhost_safe.
  { eapply forallb_impl; [| exact Hhost]. intros a. unfold host_char.
    rewrite !negb_orb. by intros [[[_ ->]%andb_prop _]%andb_prop _]%andb_prop. }
  assert (Str.forallb (λ a, negb (UrlParse.netloc_delim a)) host = true)
    as Hhost_delim.
  { eapply forallb_impl; [| exact Hhost]. intros a. unfold host_char.
    rewrite !negb_orb. by intros [[[-> _]%andb_prop _]%andb_prop _]%andb_prop. }
  assert (Str.forallb (λ a, negb (UrlParse.unsafe_byte a)) p = true)
    as Hp_safe.
  { eapply forallb_impl; [| exact Hp]. intros a. unfold path_char.
    rewrite !negb_orb. by intros [[-> _]%andb_prop _]%andb_prop. }
  assert (Str.mem "[" host = false ∧ Str.mem "]" host = false)
    as [Hopen Hclose].
  { split; (eapply forallb_mem; [| exact Hhost]); reflexivity. }
  assert (Str.mem "?" p = false ∧ Str.mem "#" p = false) as [Hq Hf].
  { split; (eapply forallb_mem; [| exact Hp]); reflexivity. }
  unfold UrlParse.path.
  assert (Str.remove UrlParse.unsafe_byte
            (Str.lstrip UrlParse.c0_control_or_space
               (scheme +:+ "://" +:+ host +:+ "/" +:+ p))
          = scheme +:+ "://" +:+ host +:+ "/" +:+ p) as ->.
  { assert (Str.lstrip UrlParse.c0_control_or_space
              (scheme +:+ "://" +:+ host +:+ "/" +:+ p)
            = scheme +:+ "://" +:+ host +:+ "/" +:+ p) as ->
      by (by destruct Hscheme as [-> | ->]).
    rewrite !remove_app, (remove_none _ host Hhost_safe),
      (remove_none _ p Hp_safe).
    by destruct Hscheme as [-> | ->]. }
  assert (UrlParse.split_scheme (scheme +:+ "://" +:+ host +:+ "/" +:+ p)
          = (scheme, "//" +:+ host +:+ "/" +:+ p)) as ->
    by (by destruct Hscheme as [-> | ->]).
  assert (UrlParse.split_netloc ("//" +:+ host +:+ "/" +:+ p)
          = (host, String "/" p)) as ->.
  { change (UrlParse.split_netloc ("//" +:+ host +:+ "/" +:+ p))
      with (Str.break UrlParse.netloc_delim (host +:+ String "/" p)).
    rewrite break_app, (break_none _ host Hhost_delim), break_cons.
    cbn [fst snd]. change (UrlParse.netloc_delim "/") with true.
    cbn [fst snd]. by rewrite append_nil_r. }
  unfold UrlParse.bad_brackets. rewrite Hopen, Hclose. cbn [xorb].
  assert (Str.before "?" (Str.before "#" (String "/" p)) = String "/" p) as ->.
  { unfold Str.before.
    rewrite (break_miss "#" (String "/" p)) by (cbn [Str.mem]; by rewrite Hf).
    cbn [fst].
    by rewrite (break_miss "?" (String "/" p))
      by (cbn [Str.mem]; by rewrite Hq). }
  by destruct Hscheme as [-> | ->].
Qed.

(** X13. For an [http] or [https] URL with a host and a path free of the
    characters that end a component, the local filename is the last
    segment of the path, cut at its first semicolon: what follows a
    semicolon is taken for parameters and does not enter the name.  In
    particular a last segment without semicolon is the name itself, and a
    path that ends in a slash gives the empty name. *)
Theorem http_url_is_named_by_its_last_segment (scheme host p : string) :
  scheme = "http" ∨ scheme = "https" →
  Str.forallb host_char host = true →
  Str.forallb path_char p = true →
  let url := scheme +:+ "://" +:+ host +:+ "/" +:+ p in
  local_filename url = Some (Str.before ";" (Str.after_last "/" p))
  ∧ (∀ dir file,
       p = dir +:+ "/" +:+ file →
       Str.mem "/" file = false → Str.mem ";" file = false →
       local_filename url = Some file)
  ∧ (∀ dir, p = dir +:+ "/" → local_filename url = Some "").
Proof.
  intros Hscheme Hhost Hp url.
  assert (local_filename url = Some (Str.before ";" (Str.after_last "/" p)))
    as Hname.
  { unfold local_filename, url. rewrite (http_path _ _ _ Hscheme Hhost Hp).
    cbn [fmap option_fmap option_map].
    by rewrite basename_strip_params, after_last_cons. }
  split_and!; [done | |].
  - intros dir file -> Hslash Hsemi. rewrite Hname.
    rewrite append_cons, append_nil_l.
    rewrite (after_last_app "/" dir file Hslash).
    unfold Str.before. by rewrite (break_miss ";" file Hsemi).
  - intros dir ->. rewrite Hname.
    by rewrite (after_last_app "/" dir "" eq_refl).
Qed.

(** ** The summary (lines 169-183) *)

(** The lines [print_summary] writes, in order.  The method reads the byte
    counter, the two lists and [total_time]; the wall-clock time is not
    part of the state here and is passed as an argument. *)
Inductive summary_line :=
| SummaryTitle                      (* 170 *)
| SummaryRule                       (* 171 *)
| TotalBytes (n : Z)                (* 172 *)
| TimeTaken (seconds : Q)           (* 173 *)
| SuccessTitle                      (* 176 *)
| FailedTitle                       (* 181 *)
| Entry (s : string).               (* 178 and 183 *)

(** [if l: print(title); for f in l: print(f" - {f}")]. *)
Definition print_section (title : summary_line) (l : list string)
    : list summary_line :=
  match l with
  | [] => []
  | _ => title :: (Entry <$> l)
  end.

Definition print_summary (total_time : Q) (w : world) : list summary_line :=
  [SummaryTitle; SummaryRule; TotalBytes (total_bytes w); TimeTaken total_time]
  ++ print_section SuccessTitle (success w)
  ++ print_section FailedTitle (failed w).

(** The entry a line of the summary shows, if any. *)
Definition entry_of (line : summary_line) : option string :=
  match line with
  | Entry s => Some s
  | _ => None
  end.

Lemma entries_of_section (title : summary_line) (l : list string) :
  entry_of title = None →
  omap entry_of (print_section title l) = l.
Proof.
  intros Htitle. unfold print_section.
  assert (omap entry_of (Entry <$> l) = l) as Hmap.
  { induction l as [| x l IH]; [done |]. cbn. by rewrite IH. }
  destruct l as [| x l]; [done |].
  rewrite <- Hmap at 2. cbn [omap list_omap]. by rewrite Htitle.
Qed.

Lemma entries_of_summary (t : Q) (w : world) :
  omap entry_of (print_summary t w) = success w ++ failed w.
Proof.
  unfold print_summary. rewrite !omap_app, !entries_of_section by done.
  reflexivity.
Qed.

Lemma title_of_section (title other : summary_line) (l : list string) :
  entry_of title = None →
  title ∈ print_section other l ↔ title = other ∧ l ≠ [].
Proof.
  intros Htitle. unfold print_section. destruct l as [| x l].
  - split; [by intros ?%elem_of_nil | by intros [_ ?]].
  - rewrite elem_of_cons, list_elem_of_fmap. split.
    + intros [-> | (y & -> & _)]; [done | discriminate].
    + intros [-> _]. by left.
Qed.

(** X14. After a batch over targets whose local files can be opened, started
    with both lists empty, the summary shows exactly one entry for each
    target, in two runs that follow the order of the targets: the local
    filenames of the successes, then the URLs of the failures.  A section
    and its title are printed exactly when its list is not empty, and the
    byte line shows the counter. *)
Theorem summary_accounts_for_every_target (t : Q) (w : world) :
  success w = [] →
  failed w = [] →
  Forall (writable (disk w)) (file_urls w) →
  match download_files md5_hexdigest net w with
  | (res, w') =>
      res = Return tt
      ∧ recorded (file_urls w) (success w') (failed w')
      ∧ omap entry_of (print_summary t w') = success w' ++ failed w'
      ∧ length (omap entry_of (print_summary t w')) = length (file_urls w)
      ∧ (SuccessTitle ∈ print_summary t w' ↔ success w' ≠ [])
      ∧ (FailedTitle ∈ print_summary t w' ↔ failed w' ≠ [])
      ∧ TotalBytes (total_bytes w') ∈ print_summary t w'
  end.
Proof.
  intros Hs0 Hf0 Hw.
  destruct (for_each_records (file_urls w) w Hw)
    as (w' & s & f & Hrun & Hrec & Hs & Hf & _).
  unfold download_files. run. rewrite Hrun.
  rewrite Hs0 in Hs. rewrite Hf0 in Hf. cbn [app] in Hs, Hf. subst s f.
  rewrite entries_of_summary.
  split_and!; [done | done | done | | | |].
  - rewrite length_app. by apply recorded_length.
  - unfold print_summary. rewrite !elem_of_app, !elem_of_cons, elem_of_nil.
    rewrite !title_of_section by done. intuition congruence.
  - unfold print_summary. rewrite !elem_of_app, !elem_of_cons, elem_of_nil.
    rewrite !title_of_section by done. intuition congruence.
  - unfold print_summary. rewrite !elem_of_app, !elem_of_cons. tauto.
Qed.

(** ** Complete files, continued *)

(** X15. A local file that has the size the HEAD request reports but not the
    expected digest is announced as complete and then recorded as failed:
    no GET is issued and the file is left as it is, so a later call with
    the same answers ends the same way. *)
Theorem corrupt_complete_file_is_not_fetched_again (url : string)
    (expected : string) (w : world) (name : string)
    (content : list Byte.byte) (h : option string) :
  local_filename url = Some name →
  stat (disk w) name = Some (File content) →
  head net url = Some h →
  header_value h = Some (Z.of_nat (length content)) →
  expected ≠ "" →
  md5_hexdigest content ≠ expected →
  download_file md5_hexdigest net url (Some expected) w
  = refused url w [Head url; Print (AlreadyComplete name)]
      (ValueError (MD5Mismatch name expected (md5_hexdigest content))).
Proof.
  intros Hn Hs Hh Hv Hexp Hne. unfold download_file, refused. rewrite Hn.
  pose proof (supplied_nonempty _ Hexp) as Hsup.
  unfold probe. exec; try done.
  all: worlds.
Qed.

(** The targets whose local file is already there with the size the HEAD
    request reports. *)
Definition complete_locally (d : gmap string node) (url : string) : Prop :=
  ∃ name content h,
    local_filename url = Some name
    ∧ stat d name = Some (File content)
    ∧ head net url = Some h
    ∧ header_value h = Some (Z.of_nat (length content)).

(** The HEAD request and the line printed for each of [urls]. *)
Fixpoint skipped (urls : list string) : list event :=
  match urls with
  | [] => []
  | url :: urls' =>
      [Head url; Print (AlreadyComplete (default "" (local_filename url)))]
      ++ skipped urls'
  end.

(** The sizes of the local files of [urls], added up. *)
Fixpoint local_sizes (d : gmap string node) (urls : list string) : Z :=
  match urls with
  | [] => 0
  | url :: urls' =>
      default 0 (node_size <$> (local_filename url ≫= stat d))
      + local_sizes d urls'
  end.

Lemma for_each_complete (urls : list string) :
  ∀ w, Forall (complete_locally (disk w)) urls →
    for_each urls (λ url, download_file md5_hexdigest net url None) w
    = (Return tt,
       World (file_urls w) (total_bytes w + local_sizes (disk w) urls)
         (success w ++ omap local_filename urls) (failed w) (disk w)
         (trace w ++ skipped urls)).
Proof.
  induction urls as [| url urls IH]; intros w Hw.
  - cbn [for_each local_sizes omap list_omap skipped]. run.
    rewrite !app_nil_r, Z.add_0_r. by destruct w.
  - apply Forall_cons in Hw as [(name & content & h & Hn & Hs & Hh & Hv) Hw].
    cbn [for_each]. run.
    rewrite (download_file_already_complete url None w name content h)
      by (done || by left).
    rewrite IH by done. fields.
    cbn [local_sizes omap list_omap skipped]. rewrite Hn.
    cbn [default mbind option_bind fmap option_fmap option_map]. rewrite Hs.
    cbn [default mbind option_bind fmap option_fmap option_map node_size].
    worlds. unfold id. lia.
Qed.

Lemma skipped_no_get (urls : list string) (url : string)
    (range : option string) :
  Get url range ∉ skipped urls.
Proof.
  induction urls as [| u us IH]; cbn [skipped app].
  - apply not_elem_of_nil.
  - rewrite !not_elem_of_cons. split_and!; done.
Qed.

(** X16. A batch over targets that are all complete locally issues one HEAD
    request per target and no GET, leaves the directory as it is, and
    records every local filename as a success, adding the size of every
    file to the byte counter once more. *)
Theorem batch_over_complete_files_fetches_nothing (w : world) :
  Forall (complete_locally (disk w)) (file_urls w) →
  match download_files md5_hexdigest net w with
  | (res, w') =>
      res = Return tt
      ∧ disk w' = disk w
      ∧ trace w' = trace w ++ skipped (file_urls w)
      ∧ (∀ url range, Get url range ∉ skipped (file_urls w))
      ∧ success w' = success w ++ omap local_filename (file_urls w)
      ∧ length (omap local_filename (file_urls w)) = length (file_urls w)
      ∧ failed w' = failed w
      ∧ total_bytes w' = total_bytes w + local_sizes (disk w) (file_urls w)
  end.
Proof.
  intros Hw. unfold download_files. run.
  rewrite (for_each_complete (file_urls w) w Hw). fields.
  split_and!; try done.
  - intros url range. apply skipped_no_get.
  - induction Hw as [| u us (name & _ & _ & Hn & _) _ IH]; [done |].
    cbn [omap list_omap]. rewrite Hn. cbn [length]. by rewrite IH.
Qed.

(** ** Progress, continued *)

(** X17. For a positive expected total and a byte count between 0 and that
    total, the percentage shown lies between 0 and 100: it is 0 for no
    byte and 100 for the whole total. *)
Theorem progress_percentage_stays_in_range (downloaded total : Z)
    (w : world) :
  0 < total →
  0 ≤ downloaded ≤ total →
  ∃ percent : Q,
    show_progress downloaded total w
    = (Return tt,
       set_trace (trace w ++ [Progress downloaded total percent]) w)
    ∧ (0 <= percent)%Q
    ∧ (percent <= 100)%Q
    ∧ (downloaded = 0 → (percent == 0)%Q)
    ∧ (downloaded = total → (percent == 100)%Q).
Proof.
  intros Htotal Hrange. exists (percent_of downloaded total).
  split; [apply show_progress_run |].
  unfold percent_of. destruct (decide (total = 0)) as [-> | _]; [lia |].
  destruct total as [| t | t]; try lia.
  unfold Qle, Qeq, Qdiv, Qmult, Qinv, inject_Z. cbn.
  split_and!; intros; subst; lia.
Qed.
End Properties.

(** ** Statuses *)

(** C6, as the code has it.  When the response to the body GET has a client
    or server error status (400 to 599), the method records the URL in the
    failure list and returns: nothing is opened or written, the disk, the
    success list and the byte counter are unchanged, and the diagnostic
    carries the status.  No other status is rejected: the run is then the
    one for a response with status 200 and the same Content-Length and
    body. *)
Theorem error_status_fails_before_the_body
    (md5_hexdigest : list Byte.byte → string) (net : remote) (url : string)
    (e : option string) (w : world) (name : string) (old : list Byte.byte)
    (range : option string) (r : response) :
  local_filename url = Some name →
  reaches_get net url name w old range →
  get net url range = Some r →
  (400 ≤ status_code r < 600 →
   download_file md5_hexdigest net url e w
   = (Return tt,
      World (file_urls w) (total_bytes w) (success w) (failed w ++ [url])
        (disk w)
        (trace w ++ probe_events url name range
           ++ [Get url range;
               Print (FailedToDownload url (HTTPError (status_code r)))])))
  ∧ (¬ 400 ≤ status_code r < 600 →
     ∀ (net' : remote) (r' : response),
       head net' url = head net url →
       get net' url range = Some r' →
       status_code r' = 200 →
       content_length r' = content_length r →
       chunks r' = chunks r →
       broken r' = broken r →
       download_file md5_hexdigest net url e w
       = download_file md5_hexdigest net' url e w).
Proof.
  intros Hn Hreach Hget. split.
  - intros Hstatus. by eapply download_file_error_status.
  - intros Hstatus net' r' Hhead Hget' Hstatus' Hlen Hchunks Hbroken.
    assert (reaches_get net' url name w old range) as Hreach'.
    { destruct Hreach as [? | (h & total & ? & ? & ?)]; [by left |].
      right. exists h, total. by rewrite Hhead. }
    rewrite (download_file_reaches_get md5_hexdigest net _ e _ _ _ _
               Hn Hreach).
    rewrite (download_file_reaches_get md5_hexdigest net' _ e _ _ _ _
               Hn Hreach').
    assert ((400 <=? status_code r) && (status_code r <? 600) = false) as Hb.
    { apply andb_false_iff.
      destruct (Z.leb_spec 400 (status_code r)); [| by left].
      destruct (Z.ltb_spec (status_code r) 600); [lia | by right]. }
    unfold transfer. run. rewrite Hget, Hget'. run.
    rewrite Hb, Hstatus', Hlen, Hchunks, Hbroken. reflexivity.
Qed.

(** ** Concrete runs *)

(** Stands for [hashlib.md5] in the runs below: every content is given the
    MD5 digest of the empty input. *)
Definition md5_of_empty (content : list Byte.byte) : string :=
  "d41d8cd98f00b204e9800998ecf8427e".

(** A remote side given by its answers to HEAD and GET; the cookie is
    accepted. *)
Definition serving (head : string → option (option string))
    (get : string → option string → option response) : remote :=
  Remote head get (Some 200) (λ _ _, Some 200) "" "".

(** A fresh [BulkDownloader] for [urls] in the directory [d]. *)
Definition fresh (urls : list string) (d : gmap string node) : world :=
  World urls 0 [] [] d [].

(** The requests and the [open] calls of a trace. *)
Definition io (t : list event) : list event :=
  List.filter (λ ev, match ev with
                     | Head _ | Get _ _ | Open _ _ => true
                     | _ => false
                     end) t.

Definition two_bytes : list Byte.byte := [Byte.x01; Byte.x02].
Definition three_bytes : list Byte.byte := [Byte.x01; Byte.x02; Byte.x03].
Definition five_bytes : list Byte.byte :=
  [Byte.x01; Byte.x02; Byte.x03; Byte.x04; Byte.x05].

Definition dir_url : string := "https://datapool.example/SLC/".
Definition zip_url : string := "https://datapool.example/SLC/a.zip".
Definition b_url : string := "https://datapool.example/SLC/b.zip".
Definition mirror_url : string := "https://mirror.example/pub/a.zip".

(** The directory holds two of the five bytes of [a.zip]. *)
Definition partial_disk : gmap string node := {[ "a.zip" := File two_bytes ]}.

(** The directory holds [a.zip] with its three bytes. *)
Definition complete_disk : gmap string node :=
  {[ "a.zip" := File three_bytes ]}.

(** A property of the pair a run returns, read on its two components. *)
Lemma on_result {A B} (P : A → B → Prop) (p : A * B) :
  (let '(a, b) := p in P a b) → P p.1 p.2.
Proof. by destruct p. Qed.

Ltac concrete := vm_compute; first [reflexivity | discriminate | lia].

(** *** A directory URL aborts the batch *)

(** Every GET is answered 200 with a body of three bytes. *)
Definition always_ok : remote :=
  serving (λ _, None)
    (λ _ _, Some (Response 200 (Some "3") [three_bytes] false)).


(** *** One target succeeds, the next one fails *)

(** [a.zip] is served; every other request meets a transport error. *)
Definition first_only : remote :=
  serving (λ _, None)
    (λ url _, if decide (url = zip_url)
              then Some (Response 200 (Some "3") [three_bytes] false)
              else None).


(** *** A server that ignores the Range header *)

(** HEAD reports five bytes; every GET is answered 200 with all five. *)
Definition ignoring_range : remote :=
  serving (λ _, Some (Some "5"))
    (λ _ _, Some (Response 200 (Some "5") [five_bytes] false)).

(** C2 fails as stated: two bytes are local and the remote total is five;
    the GET carries [Range: bytes=2-] and the file is opened for append, the
    server sends the whole file, both size checks pass against 5 + 2, and
    the target is a success with seven bytes on disk. *)
Lemma resumed_file_can_exceed_the_remote_total :
  let w := fresh [zip_url] partial_disk in
  let run := download_file md5_of_empty ignoring_range zip_url None w in
  stat (disk w) "a.zip" = Some (File two_bytes)
  ∧ header_value <$> head ignoring_range zip_url = Some (Some 5)
  ∧ run.1 = Return tt
  ∧ success run.2 = ["a.zip"]
  ∧ io (trace run.2)
    = [Head zip_url; Get zip_url (Some "bytes=2-"); Open "a.zip" AB]
  ∧ node_size <$> stat (disk run.2) "a.zip" = Some 7.
Proof. split_and!; concrete. Qed.

(** *** A server that honours the Range header *)

(** HEAD reports five bytes; a GET is answered 206 with the last three. *)
Definition honouring_range : remote :=
  serving (λ _, Some (Some "5"))
    (λ _ _, Some (Response 206 (Some "3") [three_bytes] false)).

Lemma resumed_request_asks_for_the_remainder_witness :
  let w := fresh [zip_url] partial_disk in
  let run := download_file md5_of_empty honouring_range zip_url None w in
  (∃ evs,
     trace run.2
     = [Head zip_url; Print (Restarting "a.zip");
        Get zip_url (Some "bytes=2-")] ++ evs
     ∧ Forall (after_get "a.zip" AB) evs)
  ∧ stat (disk run.2) "a.zip" = Some (File (two_bytes ++ three_bytes)).
Proof.
  intros w run.
  pose proof (resumed_request_asks_for_the_remainder md5_of_empty
                honouring_range zip_url None w "a.zip" two_bytes (Some "5") 5
                ltac:(concrete) ltac:(concrete) ltac:(concrete)
                ltac:(concrete) ltac:(concrete)) as H.
  apply on_result in H. destruct H as (evs & Htr & Hall & Hok). split.
  - exists evs. split; [exact Htr | exact Hall].
  - destruct Hok as (r & n & Hget & _ & Hstat & _); [concrete |].
    injection Hget as <-. exact Hstat.
Defined.

(** *** A complete local file *)

(** HEAD reports three bytes; a GET would meet a transport error. *)
Definition head_only : remote := serving (λ _, Some (Some "3")) (λ _ _, None).

Lemma complete_file_is_not_fetched_witness :
  let w := fresh [zip_url] complete_disk in
  let run := download_file md5_of_empty head_only zip_url None w in
  run.1 = Return tt
  ∧ trace run.2 = [Head zip_url; Print (AlreadyComplete "a.zip")]
  ∧ disk run.2 = complete_disk
  ∧ success run.2 = ["a.zip"]
  ∧ total_bytes run.2 = 3.
Proof.
  intros w run.
  pose proof (complete_file_is_not_fetched md5_of_empty head_only zip_url
                None w "a.zip" three_bytes (Some "3")
                ltac:(concrete) ltac:(concrete) ltac:(concrete)
                ltac:(concrete) ltac:(left; concrete)) as H.
  apply on_result in H.
  destruct H as (Hres & Htr & _ & Hdisk & Hok & _ & Hbytes & _).
  split_and!;
    [exact Hres | exact Htr | exact Hdisk | exact Hok | exact Hbytes].
Defined.

(** *** The two size checks *)

(** HEAD reports five bytes; the GET announces the last three and sends
    one. *)
Definition truncating : remote :=
  serving (λ _, Some (Some "5"))
    (λ _ _, Some (Response 206 (Some "3") [[Byte.x03]] false)).

(** The directory holds four bytes of [a.zip], after its size was measured
    as two. *)
Definition grown_disk : gmap string node :=
  {[ "a.zip" := File [Byte.x01; Byte.x02; Byte.x03; Byte.x04] ]}.

Lemma size_is_checked_against_expected_total_witness :
  let short := from_get md5_of_empty truncating zip_url "a.zip" None 2
                 (Some "bytes=2-") (fresh [zip_url] partial_disk) in
  let long := from_get md5_of_empty honouring_range zip_url "a.zip" None 2
                (Some "bytes=2-") (fresh [zip_url] grown_disk) in
  (short.1 = Return tt
   ∧ failed short.2 = [zip_url]
   ∧ success short.2 = []
   ∧ last (trace short.2)
     = Some (Print (FailedToDownload zip_url
                      (ValueError (SizeMismatch 3 5)))))
  ∧ (long.1 = Return tt
     ∧ failed long.2 = [zip_url]
     ∧ success long.2 = []
     ∧ last (trace long.2)
       = Some (Print (FailedToDownload zip_url
                        (ValueError (FinalSizeMismatch 7 5))))).
Proof.
  intros short long. split.
  - destruct (size_is_checked_against_expected_total md5_of_empty
                truncating zip_url None (fresh [zip_url] partial_disk)
                "a.zip" two_bytes 2 (Some "bytes=2-")
                (Response 206 (Some "3") [[Byte.x03]] false) 3
                ltac:(concrete)
                ltac:(right; exists two_bytes; split; concrete)
                ltac:(concrete) ltac:(concrete) ltac:(concrete)
                ltac:(concrete)) as [H _].
    apply on_result in H.
    destruct H as (_ & (evs & Htr & _ & Hsize & _) & Hfail).
    destruct Hfail as (Hres & Hf & Hs & _); [left; concrete |].
    split_and!; [exact Hres | exact Hf | exact Hs |].
    etransitivity; [exact (f_equal last Htr) |]. apply Hsize. concrete.
  - destruct (size_is_checked_against_expected_total md5_of_empty
                honouring_range zip_url None
                (fresh [zip_url] grown_disk) "a.zip"
                [Byte.x01; Byte.x02; Byte.x03; Byte.x04] 2
                (Some "bytes=2-")
                (Response 206 (Some "3") [three_bytes] false) 3
                ltac:(concrete)
                ltac:(right;
                      exists [Byte.x01; Byte.x02; Byte.x03; Byte.x04];
                      split; concrete)
                ltac:(concrete) ltac:(concrete) ltac:(concrete)
                ltac:(concrete)) as [H _].
    apply on_result in H.
    destruct H as (_ & (evs & Htr & _ & _ & Hfinal) & Hfail).
    destruct Hfail as (Hres & Hf & Hs & _); [right; concrete |].
    split_and!; [exact Hres | exact Hf | exact Hs |].
    etransitivity; [exact (f_equal last Htr) |]. apply Hfinal; concrete.
Defined.

(** *** A wrong checksum *)

Definition zeros : string := "00000000000000000000000000000000".

Lemma checksum_mismatch_fails_the_target_witness :
  let w := fresh [zip_url] ∅ in
  let run := download_file md5_of_empty always_ok zip_url (Some zeros) w in
  verify_file_integrity md5_of_empty "a.zip" (Some zeros) run.2
  = (Raise (ValueError (MD5Mismatch "a.zip" zeros
                          "d41d8cd98f00b204e9800998ecf8427e")), run.2)
  ∧ stat (disk run.2) "a.zip" = Some (File three_bytes)
  ∧ run.1 = Return tt
  ∧ failed run.2 = [zip_url]
  ∧ success run.2 = []
  ∧ total_bytes run.2 = 0.
Proof.
  intros w run.
  destruct (checksum_mismatch_fails_the_target md5_of_empty always_ok
              zip_url "a.zip" zeros w ltac:(concrete) ltac:(concrete))
    as (_ & Hraise & H).
  apply on_result in H.
  assert (stat (disk run.2) "a.zip" = Some (File three_bytes)) as Hstat
    by concrete.
  destruct (H three_bytes Hstat ltac:(concrete)) as (Hres & Hf & Hs & Hb).
  split_and!;
    [| exact Hstat | exact Hres | exact Hf | exact Hs | exact Hb].
  apply (Hraise run.2 three_bytes Hstat). concrete.
Defined.

(** *** Statuses *)

(** Every GET is answered with the given status and a body of two bytes. *)
Definition answering (status : Z) : remote :=
  serving (λ _, None)
    (λ _ _, Some (Response status (Some "2") [two_bytes] false)).

(** C6 fails as stated: status 300 is not in the 2xx range, yet
    [raise_for_status] lets it pass, the body is written to disk and the
    target is recorded as a success. *)
Lemma redirect_status_is_downloaded :
  let w := fresh [zip_url] ∅ in
  let run := download_file md5_of_empty (answering 300) zip_url None w in
  status_code <$> get (answering 300) zip_url None = Some 300
  ∧ run.1 = Return tt
  ∧ success run.2 = ["a.zip"]
  ∧ failed run.2 = []
  ∧ stat (disk run.2) "a.zip" = Some (File two_bytes).
Proof. split_and!; concrete. Qed.

Lemma error_status_fails_before_the_body_witness :
  download_file md5_of_empty (answering 404) zip_url None (fresh [zip_url] ∅)
  = (Return tt,
     World [zip_url] 0 [] [zip_url] ∅
       [Print (Downloading zip_url); Get zip_url None;
        Print (FailedToDownload zip_url (HTTPError 404))])
  ∧ download_file md5_of_empty (answering 300) zip_url None
      (fresh [zip_url] ∅)
    = download_file md5_of_empty (answering 200) zip_url None
        (fresh [zip_url] ∅).
Proof.
  split.
  - apply (proj1 (error_status_fails_before_the_body md5_of_empty
                    (answering 404) zip_url None (fresh [zip_url] ∅) "a.zip"
                    [] None (Response 404 (Some "2") [two_bytes] false)
                    ltac:(concrete) ltac:(left; split_and!; concrete)
                    ltac:(concrete))).
    cbn [status_code]. lia.
  - apply (proj2 (error_status_fails_before_the_body md5_of_empty
                    (answering 300) zip_url None (fresh [zip_url] ∅) "a.zip"
                    [] None (Response 300 (Some "2") [two_bytes] false)
                    ltac:(concrete) ltac:(left; split_and!; concrete)
                    ltac:(concrete))
             ltac:(cbn [status_code]; lia)
             (answering 200) (Response 200 (Some "2") [two_bytes] false));
      reflexivity.
Defined.

(** *** The cookie *)

(** The remote side as the cookie check sees it; the user types a username
    and a password that are accepted. *)
Definition cookie_check (profile : option Z) : remote :=
  Remote (λ _, None) (λ _ _, None) profile (λ _ _, Some 200) "user" "secret".

Lemma validation_decides_renewal_witness :
  check_or_get_cookie (cookie_check (Some 200)) (fresh [] ∅)
  = (Return tt, World [] 0 [] [] ∅ [GetProfile; Print CookieValidated])
  ∧ check_or_get_cookie (cookie_check (Some 401)) (fresh [] ∅)
    = (Return tt,
       World [] 0 [] [] ∅
         [GetProfile; Print ObtainingCookie; Input; Getpass;
          GetAuthorize "user" "secret"; SaveCookies; Print CookieSaved])
  ∧ check_or_get_cookie (cookie_check None) (fresh [] ∅)
    = (Return tt,
       World [] 0 [] [] ∅
         [GetProfile; Print (CookieValidationError ConnectionError);
          Print ObtainingCookie; Input; Getpass;
          GetAuthorize "user" "secret"; SaveCookies; Print CookieSaved]).
Proof.
  split_and!.
  - apply (validation_decides_renewal (cookie_check (Some 200)) (fresh [] ∅)).
    reflexivity.
  - destruct (validation_decides_renewal (cookie_check (Some 401))
                (fresh [] ∅)) as (_ & H & _).
    rewrite (H 401); [reflexivity | reflexivity | lia].
  - destruct (validation_decides_renewal (cookie_check None) (fresh [] ∅))
      as (_ & _ & H & _).
    rewrite H; reflexivity.
Defined.

(** *** A URL that is its own filename *)

(** Every request meets a transport error. *)
Definition unreachable : remote := serving (λ _, None) (λ _ _, None).

(** C8 fails as stated: the URL [a.zip] has no slash and is its own derived
    filename; the request fails, and the entry of the failure list is the
    derived filename of the target. *)
Lemma bare_name_is_recorded_as_failed :
  let run :=
    download_file md5_of_empty unreachable "a.zip" None (fresh ["a.zip"] ∅) in
  local_filename "a.zip" = Some "a.zip"
  ∧ run.1 = Return tt
  ∧ success run.2 = []
  ∧ failed run.2 = ["a.zip"].
Proof. split_and!; concrete. Qed.

Lemma entries_are_filename_or_url_witness :
  let ok := download_file md5_of_empty always_ok zip_url None
              (fresh [zip_url] ∅) in
  let ko := download_file md5_of_empty unreachable zip_url None
              (fresh [zip_url] ∅) in
  local_filename zip_url ≠ Some zip_url
  ∧ success ok.2 ≠ [zip_url]
  ∧ failed ko.2 ≠ ["a.zip"].
Proof.
  intros ok ko.
  destruct (entries_are_filename_or_url md5_of_empty always_ok zip_url None
              (fresh [zip_url] ∅)) as [Hslash Hok].
  destruct (entries_are_filename_or_url md5_of_empty unreachable zip_url None
              (fresh [zip_url] ∅)) as [_ Hko].
  apply on_result in Hok, Hko.
  pose proof (Hslash ltac:(concrete)) as Hne.
  destruct Hok as [_ Hok], Hko as [_ Hko].
  split_and!.
  - exact Hne.
  - exact (proj1 (Hok Hne)).
  - exact (proj2 (Hko Hne) "a.zip" ltac:(concrete)).
Defined.

(** *** Two URLs, one local file *)

(** HEAD reports three bytes and every GET is answered with three bytes. *)
Definition mirrored : remote :=
  serving (λ _, Some (Some "3"))
    (λ _ _, Some (Response 200 (Some "3") [three_bytes] false)).

Lemma shared_filename_is_taken_for_a_finished_download_witness :
  let run :=
    download_files md5_of_empty mirrored (fresh [zip_url; mirror_url] ∅) in
  run.1 = Return tt
  ∧ success run.2 = ["a.zip"; "a.zip"]
  ∧ failed run.2 = []
  ∧ total_bytes run.2 = 6
  ∧ io (trace run.2)
    = [Get zip_url None; Open "a.zip" WB; Head mirror_url].
Proof.
  intros run. subst run.
  rewrite (shared_filename_is_taken_for_a_finished_download md5_of_empty
             mirrored zip_url mirror_url "a.zip" (fresh [zip_url; mirror_url] ∅)
             (Response 200 (Some "3") [three_bytes] false) (Some "3")
             ltac:(concrete) ltac:(concrete) ltac:(concrete) ltac:(concrete)
             ltac:(concrete) ltac:(concrete) ltac:(concrete) ltac:(concrete)
             ltac:(concrete) ltac:(concrete) ltac:(concrete) ltac:(concrete)).
  split_and!; concrete.
Defined.

(** *** Requests that fail *)

(** Every GET is answered 200 with a Content-Length that is no number. *)
Definition garbled_length : remote :=
  serving (λ _, None)
    (λ _ _, Some (Response 200 (Some "abc") [three_bytes] false)).

Lemma failed_get_leaves_the_directory_untouched_witness :
  download_file md5_of_empty unreachable zip_url None (fresh [zip_url] ∅)
  = (Return tt,
     World [zip_url] 0 [] [zip_url] ∅
       [Print (Downloading zip_url); Get zip_url None;
        Print (FailedToDownload zip_url ConnectionError)])
  ∧ download_file md5_of_empty garbled_length zip_url None (fresh [zip_url] ∅)
    = (Return tt,
       World [zip_url] 0 [] [zip_url] ∅
         [Print (Downloading zip_url); Get zip_url None;
          Print (FailedToDownload zip_url
                   (ValueError (InvalidLiteral "abc")))]).
Proof.
  split.
  - apply (proj1 (failed_get_leaves_the_directory_untouched md5_of_empty
                    unreachable zip_url None (fresh [zip_url] ∅) "a.zip" []
                    None ltac:(concrete) ltac:(left; split_and!; concrete))).
    concrete.
  - apply (proj2 (failed_get_leaves_the_directory_untouched md5_of_empty
                    garbled_length zip_url None (fresh [zip_url] ∅) "a.zip"
                    [] None ltac:(concrete)
                    ltac:(left; split_and!; concrete))
             (Response 200 (Some "abc") [three_bytes] false));
      concrete.
Defined.

Lemma failed_head_issues_no_get_witness :
  download_file md5_of_empty unreachable zip_url None
    (fresh [zip_url] partial_disk)
  = (Return tt,
     World [zip_url] 0 [] [zip_url] partial_disk
       [Head zip_url; Print (FailedToDownload zip_url ConnectionError)]).
Proof.
  apply (proj1 (failed_head_issues_no_get md5_of_empty unreachable zip_url
                  None (fresh [zip_url] partial_disk) "a.zip"
                  (File two_bytes) ltac:(concrete) ltac:(concrete))).
  concrete.
Defined.

(** *** A stream that breaks, and the second call *)

(** HEAD reports five bytes.  A GET without Range announces five bytes and
    breaks after two; a GET with a Range is answered with three bytes. *)
Definition flaky : remote :=
  serving (λ _, Some (Some "5"))
    (λ _ range,
       match range with
       | None => Some (Response 200 (Some "5") [two_bytes] true)
       | Some _ => Some (Response 206 (Some "3") [three_bytes] false)
       end).

Lemma broken_stream_keeps_the_received_bytes_witness :
  let run := download_file md5_of_empty flaky zip_url None
               (fresh [zip_url] ∅) in
  run.1 = Return tt
  ∧ stat (disk run.2) "a.zip" = Some (File two_bytes)
  ∧ failed run.2 = [zip_url]
  ∧ success run.2 = []
  ∧ total_bytes run.2 = 0.
Proof.
  intros run.
  pose proof (broken_stream_keeps_the_received_bytes md5_of_empty flaky
                zip_url None (fresh [zip_url] ∅) "a.zip" [] None
                (Response 200 (Some "5") [two_bytes] true) 5
                ltac:(concrete) ltac:(concrete)
                ltac:(left; split_and!; concrete)
                ltac:(concrete) ltac:(concrete) ltac:(concrete)
                ltac:(concrete)) as H.
  apply on_result in H. destruct H as (Hres & Hstat & Hf & Hs & Hb & _).
  split_and!; [exact Hres | exact Hstat | exact Hf | exact Hs | exact Hb].
Defined.

Lemma interrupted_download_is_completed_by_a_second_call_witness :
  let run := (download_file md5_of_empty flaky zip_url None;;
              download_file md5_of_empty flaky zip_url None)
               (fresh [zip_url] ∅) in
  run.1 = Return tt
  ∧ stat (disk run.2) "a.zip" = Some (File (two_bytes ++ three_bytes))
  ∧ success run.2 = ["a.zip"]
  ∧ failed run.2 = [zip_url]
  ∧ total_bytes run.2 = 5.
Proof.
  intros run.
  pose proof (interrupted_download_is_completed_by_a_second_call md5_of_empty
                flaky zip_url (fresh [zip_url] ∅) "a.zip"
                (Response 200 (Some "5") [two_bytes] true)
                (Response 206 (Some "3") [three_bytes] false) 5 (Some "5") 5
                ltac:(concrete) ltac:(concrete) ltac:(concrete)
                ltac:(concrete) ltac:(concrete) ltac:(concrete)
                ltac:(concrete) ltac:(concrete) ltac:(concrete)
                ltac:(concrete) ltac:(concrete) ltac:(concrete)
                ltac:(concrete) ltac:(concrete)) as H.
  apply on_result in H. destruct H as (Hres & Hstat & Hs & Hf & Hb).
  split_and!; [exact Hres | exact Hstat | exact Hs | exact Hf | exact Hb].
Defined.

(** *** A response without Content-Length *)

(** Every GET is answered 200 with three bytes and no Content-Length. *)
Definition unsized : remote :=
  serving (λ _, None) (λ _ _, Some (Response 200 None [three_bytes] false)).

Lemma missing_content_length_fails_a_nonempty_body_witness :
  let run := download_file md5_of_empty unsized zip_url None
               (fresh [zip_url] ∅) in
  run.1 = Return tt
  ∧ stat (disk run.2) "a.zip" = Some (File three_bytes)
  ∧ failed run.2 = [zip_url]
  ∧ success run.2 = []
  ∧ last (trace run.2)
    = Some (Print (FailedToDownload zip_url
                     (ValueError (SizeMismatch 3 0)))).
Proof.
  intros run.
  pose proof (missing_content_length_fails_a_nonempty_body md5_of_empty
                unsized zip_url (fresh [zip_url] ∅) "a.zip" [] None
                (Response 200 None [three_bytes] false)
                ltac:(concrete) ltac:(concrete)
                ltac:(left; split_and!; concrete)
                ltac:(concrete) ltac:(concrete) ltac:(concrete)
                ltac:(concrete)) as H.
  cbv zeta in H. apply on_result in H.
  destruct H as (Hres & Hstat & Hfail & _).
  destruct Hfail as (Hf & Hs & _ & Hlast); [concrete |].
  split_and!; [exact Hres | exact Hstat | exact Hf | exact Hs | exact Hlast].
Defined.

(** *** The batch *)

Lemma empty_filename_aborts_the_batch_witness :
  download_files md5_of_empty always_ok (fresh [dir_url; zip_url] ∅)
  = (Raise (OSError ""),
     World [dir_url; zip_url] 0 [] [] ∅
       [Print (Downloading dir_url); Get dir_url None; Open "" WB]).
Proof.
  apply (empty_filename_aborts_the_batch md5_of_empty always_ok dir_url
           [zip_url] (fresh [dir_url; zip_url] ∅)
           (Response 200 (Some "3") [three_bytes] false) 3);
    concrete.
Defined.

Lemma batch_touches_only_the_local_files_witness :
  ∃ url, url ∈ [zip_url; b_url]
         ∧ local_filename url = Some "a.zip"
         ∧ Str.mem "/" "a.zip" = false.
Proof.
  apply (batch_touches_only_the_local_files md5_of_empty first_only
           (fresh [zip_url; b_url] ∅) "a.zip").
  concrete.
Defined.

Lemma summary_accounts_for_every_target_witness :
  let run := download_files md5_of_empty first_only
               (fresh [zip_url; b_url] ∅) in
  run.1 = Return tt
  ∧ omap entry_of (print_summary 0 run.2) = ["a.zip"; b_url]
  ∧ SuccessTitle ∈ print_summary 0 run.2
  ∧ FailedTitle ∈ print_summary 0 run.2.
Proof.
  intros run.
  pose proof (summary_accounts_for_every_target md5_of_empty first_only 0
                (fresh [zip_url; b_url] ∅) eq_refl eq_refl) as H.
  apply on_result in H.
  - destruct H as (Hres & _ & Hentries & _ & Hs & Hf & _).
    split_and!; [exact Hres | | apply Hs; concrete | apply Hf; concrete].
    etransitivity; [exact Hentries | concrete].
  - repeat constructor; eexists; split_and!; concrete.
Defined.

Lemma batch_over_complete_files_fetches_nothing_witness :
  let run := download_files md5_of_empty head_only
               (fresh [zip_url; mirror_url] complete_disk) in
  run.1 = Return tt
  ∧ disk run.2 = complete_disk
  ∧ trace run.2
    = [Head zip_url; Print (AlreadyComplete "a.zip");
       Head mirror_url; Print (AlreadyComplete "a.zip")]
  ∧ success run.2 = ["a.zip"; "a.zip"]
  ∧ total_bytes run.2 = 6.
Proof.
  intros run.
  pose proof (batch_over_complete_files_fetches_nothing md5_of_empty head_only
                (fresh [zip_url; mirror_url] complete_disk)) as H.
  apply on_result in H.
  - destruct H as (Hres & Hdisk & Htrace & _ & Hs & _ & _ & Hb).
    split_and!; [exact Hres | exact Hdisk | | |].
    + etransitivity; [exact Htrace | concrete].
    + etransitivity; [exact Hs | concrete].
    + etransitivity; [exact Hb | concrete].
  - repeat constructor;
      exists "a.zip", three_bytes, (Some "3"); split_and!; concrete.
Defined.

Lemma corrupt_complete_file_is_not_fetched_again_witness :
  download_file md5_of_empty head_only zip_url (Some zeros)
    (fresh [zip_url] complete_disk)
  = (Return tt,
     World [zip_url] 0 [] [zip_url] complete_disk
       [Head zip_url; Print (AlreadyComplete "a.zip");
        Print (FailedToDownload zip_url
                 (ValueError
                    (MD5Mismatch "a.zip" zeros
                       "d41d8cd98f00b204e9800998ecf8427e")))]).
Proof.
  apply (corrupt_complete_file_is_not_fetched_again md5_of_empty head_only
           zip_url zeros (fresh [zip_url] complete_disk) "a.zip" three_bytes
           (Some "3"));
    concrete.
Defined.

(** *** The cookie, refused *)

(** The cookie is found invalid and the authorisation is answered 401. *)
Definition refusing : remote :=
  Remote (λ _, None) (λ _ _, None) (Some 401) (λ _ _, Some 401)
    "user" "wrong".

Lemma cookie_check_outcome_witness :
  let run := check_or_get_cookie refusing (fresh [] ∅) in
  run.1 = Raise (SystemExit 1) ∧ run.1 ≠ Return tt.
Proof.
  intros run.
  pose proof (cookie_check_outcome refusing (fresh [] ∅)) as H.
  cbv zeta in H. apply on_result in H.
  destruct H as (Hiff & Hexit & _).
  split.
  - apply (Hexit ltac:(concrete) 401); concrete.
  - intros Hret. apply Hiff in Hret as [Hp | Ha]; discriminate.
Defined.

(** *** The write loop *)

Lemma chunk_boundaries_do_not_matter_witness :
  let w := fresh [] partial_disk in
  let run := write_chunks "a.zip" [[Byte.x03]; [Byte.x04; Byte.x05]] 2 5 w in
  let run' := write_chunks "a.zip" [[Byte.x03; Byte.x04]; []; [Byte.x05]] 2 5
                w in
  run.1 = Return 5
  ∧ run'.1 = run.1
  ∧ disk run'.2 = disk run.2
  ∧ disk run.2 !! "a.zip" = Some (File five_bytes).
Proof.
  intros w run run'.
  destruct (chunk_boundaries_do_not_matter "a.zip"
              [[Byte.x03]; [Byte.x04; Byte.x05]]
              [[Byte.x03; Byte.x04]; []; [Byte.x05]] 2 5 w eq_refl)
    as (Hres & Hsame & Hdisk & Hfile & _).
  split_and!; [exact Hres | exact Hsame | exact Hdisk |].
  apply (Hfile two_bytes). concrete.
Defined.

Lemma progress_lines_follow_the_chunks_witness :
  ∃ evs q,
    trace (write_chunks "a.zip" [[Byte.x03; Byte.x04]; []; [Byte.x05]] 2 5
             (fresh [] partial_disk)).2
    = evs
    ∧ length evs = 2%nat
    ∧ last evs = Some (Progress 5 5 q).
Proof.
  destruct (progress_lines_follow_the_chunks "a.zip"
              [[Byte.x03; Byte.x04]; []; [Byte.x05]] 2 5
              (fresh [] partial_disk))
    as (evs & Htrace & Hlen & _ & _ & Hlast).
  destruct Hlast as (q & Hlast & _); [discriminate |].
  exists evs, q. split_and!; [exact Htrace | exact Hlen | exact Hlast].
Defined.

Lemma progress_percentage_stays_in_range_witness :
  ∃ percent : Q,
    show_progress 3 5 (fresh [] ∅)
    = (Return tt, World [] 0 [] [] ∅ [Progress 3 5 percent])
    ∧ (0 <= percent)%Q ∧ (percent <= 100)%Q.
Proof.
  destruct (progress_percentage_stays_in_range 3 5 (fresh [] ∅)
              ltac:(lia) ltac:(lia)) as (percent & Hrun & Hlow & Hhigh & _).
  exists percent. split_and!; [exact Hrun | exact Hlow | exact Hhigh].
Defined.

(** *** Content-Length *)

Lemma int_reads_back_a_rendered_integer_witness :
  PyInt.of_string "1234" = Some 1234
  ∧ header_value (Some "1234") = Some 1234.
Proof.
  apply (proj1 (int_reads_back_a_rendered_integer 1234)). concrete.
Defined.

(** *** Local filenames *)

Lemma query_and_fragment_do_not_name_the_file_witness :
  local_filename "https://datapool.example/SLC/a.zip?token=abc" = Some "a.zip"
  ∧ local_filename "https://datapool.example/SLC/a.zip#part" = Some "a.zip".
Proof.
  split.
  - etransitivity;
      [apply (query_and_fragment_do_not_name_the_file zip_url "token=abc" "?");
       [by left | concrete | concrete]
      | concrete].
  - etransitivity;
      [apply (query_and_fragment_do_not_name_the_file zip_url "part" "#");
       [by right | concrete | concrete]
      | concrete].
Defined.

Lemma http_url_is_named_by_its_last_segment_witness :
  local_filename "https://datapool.example/SLC/a.zip" = Some "a.zip"
  ∧ local_filename "https://datapool.example/SLC/a;v=2.zip" = Some "a"
  ∧ local_filename "https://datapool.example/SLC/" = Some "".
Proof.
  split_and!.
  - apply (proj1 (proj2 (http_url_is_named_by_its_last_segment "https"
                           "datapool.example" "SLC/a.zip" ltac:(by right)
                           ltac:(concrete) ltac:(concrete)))
             "SLC" "a.zip");
      concrete.
  - etransitivity;
      [exact (proj1 (http_url_is_named_by_its_last_segment "https"
                       "datapool.example" "SLC/a;v=2.zip" ltac:(by right)
                       ltac:(concrete) ltac:(concrete)))
      | concrete].
  - apply (proj2 (proj2 (http_url_is_named_by_its_last_segment "https"
                           "datapool.example" "SLC/" ltac:(by right)
                           ltac:(concrete) ltac:(concrete)))
             "SLC").
    concrete.
Defined.
